(** * build_db.py: the two-pass etymology graph builder

    A shallow embedding of [src/build_db.py].  Python values coming out
    of [json.loads] are a small dynamically typed universe [pyval];
    exceptions are explicit ([res]); the SQLite connection is an explicit
    store threaded through a state-and-error monad.

    Conventions of the embedding.
    - A Python [str] is the Rocq [string] of its characters.
    - JSON numbers are integers; floating point numbers are not modelled.
    - A [dict] is an association list in insertion order, read through
      [lookup_key], which returns the first binding of a key.
    - [json.loads], [json.dumps] and the [str()] of a list or a dict
      belong to the Python runtime and are taken as parameters
      ([PyRuntime]).
    - The two tables are lists of typed rows; what SQLite leaves open,
      the order of the rows a query returns, is a parameter
      ([SqlEngine]).
    - The corpus is the list of the lines of the decompressed file. *)

From Stdlib Require Import Ascii Sorted.
From stdpp Require Import gmap strings list pretty.

Open Scope string_scope.
Open Scope list_scope.
Open Scope Z_scope.

(** ** Exceptions and results *)

Inductive exn :=
| TypeError
| AttributeError
| KeyError
| JSONDecodeError
| UnicodeDecodeError
| OverflowError
| ProgrammingError
| IntegrityError
| Unsupported.

Inductive res (A : Type) :=
| Ok (a : A)
| Raise (e : exn).
Arguments Ok {A} a.
Arguments Raise {A} e.

(** ** Python values *)

#[local] Set Warnings "-register-all".

Inductive pyval :=
| PNone
| PBool (b : bool)
| PInt (n : Z)
| PStr (s : string)
| PList (items : list pyval)
| PDict (d : list (string * pyval)).

Abbreviation dict := (list (string * pyval)).

(** [d[k]] when the key is present. *)
Fixpoint lookup_key (k : string) (d : dict) : option pyval :=
  match d with
  | [] => None
  | (k', v) :: d' => if String.eqb k k' then Some v else lookup_key k d'
  end.

(** [d.get(k)]: [None] when the key is absent. *)
Definition dict_get (d : dict) (k : string) : pyval :=
  default PNone (lookup_key k d).

(** [k in d] for a dict [d]. *)
Definition dict_has (d : dict) (k : string) : bool :=
  match lookup_key k d with Some _ => true | None => false end.

(** The keys of a dict in insertion order, each once. *)
Fixpoint dict_keys (d : dict) : list string :=
  match d with
  | [] => []
  | (k, _) :: d' => k :: filter (fun k' => k' ≠ k) (dict_keys d')
  end.

(** Truth value of a Python object, as tested by [if], [not] and [or]. *)
Definition truthy (v : pyval) : bool :=
  match v with
  | PNone => false
  | PBool b => b
  | PInt n => negb (n =? 0)
  | PStr s => negb (String.eqb s "")
  | PList items => match items with [] => false | _ => true end
  | PDict d => match d with [] => false | _ => true end
  end.

(** [a or b]. *)
Definition py_or (a b : pyval) : pyval := if truthy a then a else b.

(** [v is None]. *)
Definition is_none (v : pyval) : bool :=
  match v with PNone => true | _ => false end.

(** The Python runtime functions the program calls and that are not
    part of the repository. *)
Class PyRuntime := {
  (** [json.loads(line)]: the decoded value or the exception raised *)
  json_loads : string -> res pyval;
  (** [json.dumps(value)] *)
  json_dumps : pyval -> string;
  (** [str(value)] for a list or a dict *)
  container_str : pyval -> string
}.

(** [str(v)], which is also what an f-string field [{v}] formats. *)
Definition py_str `{PyRuntime} (v : pyval) : string :=
  match v with
  | PNone => "None"
  | PBool true => "True"
  | PBool false => "False"
  | PInt n => pretty n
  | PStr s => s
  | PList _ | PDict _ => container_str v
  end.

(** ** Node identity *)

Definition make_node_id `{PyRuntime} (entry : dict) : string :=
  let lang_code := py_or (dict_get entry "lang_code") (PStr "") in
  let word := py_or (dict_get entry "word") (PStr "") in
  let pos := py_or (dict_get entry "pos") (PStr "") in
  let ety_num := dict_get entry "etymology_number" in
  let ety_num := if is_none ety_num then PInt 0 else ety_num in
  py_str lang_code +:+ ":" +:+ py_str word +:+ ":" +:+ py_str pos
    +:+ ":" +:+ py_str ety_num.

(** The identity formula in the words of the specification, over typed
    attributes; [None] stands for an attribute that is absent or null. *)
Definition identity_spec (lang_code word pos : option string)
    (etymology_number : option Z) : string :=
  default "" lang_code +:+ ":" +:+ default "" word +:+ ":"
    +:+ default "" pos +:+ ":" +:+ pretty (default 0 etymology_number).

(** An optional string or integer as the Python value read by [get]:
    [None] for an attribute that is absent or null. *)
Definition opt_str (o : option string) : pyval :=
  match o with Some s => PStr s | None => PNone end.

Definition opt_int (o : option Z) : pyval :=
  match o with Some n => PInt n | None => PNone end.

(** ** Results *)

Definition res_bind {A B} (r : res A) (k : A -> res B) : res B :=
  match r with
  | Ok a => k a
  | Raise e => Raise e
  end.

Notation "x <~ r ;; k" := (res_bind r (fun x => k))
  (at level 100, r at next level, right associativity).

Fixpoint res_map {A B} (f : A -> res B) (l : list A) : res (list B) :=
  match l with
  | [] => Ok []
  | a :: l' => b <~ f a ;; bs <~ res_map f l' ;; Ok (b :: bs)
  end.

(** ** More of the Python runtime *)

(** [bytes.strip()]: ASCII white space removed at both ends. *)
Fixpoint lstrip (s : string) : string :=
  match s with
  | String c s' => if Ascii.is_space c then lstrip s' else s
  | EmptyString => EmptyString
  end.

Definition strip (s : string) : string :=
  String.rev (lstrip (String.rev (lstrip s))).

(** [sub in s] for two strings: [sub] occurs in [s]. *)
Fixpoint str_contains (sub s : string) : bool :=
  String.prefix sub s
  || match s with
     | String _ s' => str_contains sub s'
     | EmptyString => false
     end.

(** [v == s] for a string [s]: only an equal string is equal to it. *)
Definition py_eq_str (v : pyval) (s : string) : bool :=
  match v with
  | PStr s' => String.eqb s' s
  | _ => false
  end.

(** [k in v] for a string [k]: key of a dict, element of a list,
    substring of a string; the other values are not containers. *)
Definition py_in (k : string) (v : pyval) : res bool :=
  match v with
  | PDict d => Ok (dict_has d k)
  | PList items => Ok (existsb (fun x => py_eq_str x k) items)
  | PStr s => Ok (str_contains k s)
  | PNone | PBool _ | PInt _ => Raise TypeError
  end.

(** The characters of a string, each as a string of length one. *)
Fixpoint str_chars (s : string) : list string :=
  match s with
  | String c s' => String c EmptyString :: str_chars s'
  | EmptyString => []
  end.

(** [for item in v]: the items a [for] loop visits. *)
Definition py_iter (v : pyval) : res (list pyval) :=
  match v with
  | PList items => Ok items
  | PDict d => Ok (map PStr (dict_keys d))
  | PStr s => Ok (map PStr (str_chars s))
  | PNone | PBool _ | PInt _ => Raise TypeError
  end.

(** [v.get]: only a dict has the method. *)
Definition as_dict (v : pyval) : res dict :=
  match v with
  | PDict d => Ok d
  | _ => Raise AttributeError
  end.

(** ** Entry normalisation *)

Definition JSON_FIELDS : gset string :=
  {[ "etymology_templates"; "derived"; "descendants"; "alt_of"; "form_of";
     "categories"; "redirects" ]}.

Definition TARGET_KEYS : gset string :=
  {[ "word"; "lang"; "lang_code"; "pos"; "etymology_number";
     "etymology_text"; "etymology_templates"; "derived"; "descendants";
     "alt_of"; "form_of"; "categories"; "redirects"; "literal_meaning";
     "wikidata" ]}.

(** The body of the loop over [TARGET_KEYS]. *)
Definition normalize_key `{PyRuntime} (entry : dict) (key : string)
    (out : gmap string pyval) : gmap string pyval :=
  let value := dict_get entry key in
  if bool_decide (key ∈ JSON_FIELDS)
  then <[key := if is_none value then PNone else PStr (json_dumps value)]> out
  else <[key := value]> out.

Definition normalize_entry `{PyRuntime} (entry : dict) : gmap string pyval :=
  let out := set_fold (normalize_key entry) ∅ TARGET_KEYS in
  <["node_id" := PStr (make_node_id entry)]> out.

(** [norm[key]] and [norm.get(key)] on the normalised record. *)
Definition subscript (norm : gmap string pyval) (key : string) : res pyval :=
  match norm !! key with
  | Some v => Ok v
  | None => Raise KeyError
  end.

Definition norm_get (norm : gmap string pyval) (key : string) : pyval :=
  default PNone (norm !! key).

(** ** The store

    The two tables of [SCHEMA_ENTRIES] and [SCHEMA_EDGES], each a list of
    rows in insertion (rowid) order.  A column holds what SQLite keeps
    for the value bound to it: text columns have TEXT affinity, so an
    integer bound to one is kept as its decimal text.  The single
    integer column, [etymology_number], is modelled as holding integers
    or NULL only: text bound to it, which SQLite would keep by affinity,
    is reported as [Unsupported], so runs that do it are outside the
    model.  Foreign keys are not enforced (the SQLite default), and
    [commit] has no effect the single connection observes. *)

Inductive sqlval :=
| SNull
| SInt (n : Z)
| SText (s : string).

Record entries_row := {
  node_id : string;
  word : string;
  lang : option string;
  lang_code : string;
  pos : option string;
  etymology_number : option Z;
  etymology_text : option string;
  etymology_templates : option string;
  derived : option string;
  descendants : option string;
  alt_of : option string;
  form_of : option string;
  categories : option string;
  redirects : option string;
  literal_meaning : option string;
  wikidata : option string
}.

Record edges_row := {
  src_id : string;
  dst_id : string;
  relation_type : string;
  raw_payload : option string
}.

Record store := {
  entries : list entries_row;
  edges : list edges_row
}.

(** What the engine leaves open: the order in which a [SELECT] without
    [ORDER BY] returns the rows it matched (given here in table order). *)
Class SqlEngine := {
  select_order : list entries_row -> list entries_row;
  select_order_perm : forall rows, select_order rows ≡ₚ rows
}.

(** How [sqlite3] adapts a Python value bound to a [?]. *)
Definition adapt (v : pyval) : res sqlval :=
  match v with
  | PNone => Ok SNull
  | PBool b => Ok (SInt (Z.b2z b))
  | PInt n =>
      if (- 2 ^ 63 <=? n) && (n <? 2 ^ 63) then Ok (SInt n)
      else Raise OverflowError
  | PStr s => Ok (SText s)
  | PList _ | PDict _ => Raise ProgrammingError
  end.

(** A value as a TEXT column keeps it, and as an INTEGER column does. *)
Definition text_column (v : sqlval) : option string :=
  match v with
  | SNull => None
  | SInt n => Some (pretty n)
  | SText s => Some s
  end.

Definition integer_column (v : sqlval) : res (option Z) :=
  match v with
  | SNull => Ok None
  | SInt n => Ok (Some n)
  | SText _ => Raise Unsupported
  end.

(** A [NOT NULL] column (and the key, which the program never binds to
    NULL). *)
Definition not_null {A} (v : option A) : res A :=
  match v with
  | Some a => Ok a
  | None => Raise IntegrityError
  end.

(** The row that the sixteen parameters of [insert_sql] make. *)
Definition bind_entries_row (params : list pyval) : res entries_row :=
  vals <~ res_map adapt params ;;
  match vals with
  | [c_node_id; c_word; c_lang; c_lang_code; c_pos; c_ety; c_text; c_templates;
     c_derived; c_descendants; c_alt_of; c_form_of; c_categories; c_redirects;
     c_literal; c_wikidata] =>
      ety <~ integer_column c_ety ;;
      id <~ not_null (text_column c_node_id) ;;
      w <~ not_null (text_column c_word) ;;
      lc <~ not_null (text_column c_lang_code) ;;
      Ok {| node_id := id; word := w; lang := text_column c_lang;
            lang_code := lc; pos := text_column c_pos;
            etymology_number := ety;
            etymology_text := text_column c_text;
            etymology_templates := text_column c_templates;
            derived := text_column c_derived;
            descendants := text_column c_descendants;
            alt_of := text_column c_alt_of;
            form_of := text_column c_form_of;
            categories := text_column c_categories;
            redirects := text_column c_redirects;
            literal_meaning := text_column c_literal;
            wikidata := text_column c_wikidata |}
  | _ => Raise ProgrammingError
  end.

(** [INSERT OR REPLACE] on the primary key [node_id]: the row holding
    the key, if any, is deleted and the new row is added. *)
Definition insert_or_replace (r : entries_row) (table : list entries_row)
    : list entries_row :=
  List.filter (fun r' => negb (String.eqb (node_id r') (node_id r))) table
    ++ [r].

(** [WHERE lang_code = ? AND word = ?] on a row. *)
Definition where_lang_word (lc w : string) (r : entries_row) : bool :=
  String.eqb (lang_code r) lc && String.eqb (word r) w.

(** A candidate row: [(node_id, pos, etymology_number)]. *)
Abbreviation candidate := (string * option string * option Z)%type.

Definition candidate_of (r : entries_row) : candidate :=
  (node_id r, pos r, etymology_number r).

(** Computations on the cursor: the store is read and written, and an
    exception ends the run. *)
Definition M (A : Type) : Type := store -> res (A * store).

Definition ret {A} (a : A) : M A := fun st => Ok (a, st).

Definition bind {A B} (m : M A) (k : A -> M B) : M B :=
  fun st =>
    match m st with
    | Ok (a, st') => k a st'
    | Raise e => Raise e
    end.

Definition lift {A} (r : res A) : M A :=
  fun st =>
    match r with
    | Ok a => Ok (a, st)
    | Raise e => Raise e
    end.

Notation "x <- m ;; k" := (bind m (fun x => k))
  (at level 100, m at next level, right associativity).

Notation "m ;;; k" := (bind m (fun _ => k))
  (at level 100, right associativity).

(** [for x in l: acc = body(x, acc)]. *)
Fixpoint for_each {A S} (l : list A) (body : A -> S -> M S) (acc : S) : M S :=
  match l with
  | [] => ret acc
  | x :: l' => acc' <- body x acc ;; for_each l' body acc'
  end.

(** [cur.execute(insert_sql, params)] of the node pass. *)
Definition execute_insert_entries (params : list pyval) : M unit :=
  fun st =>
    match bind_entries_row params with
    | Ok r =>
        Ok (tt, {| entries := insert_or_replace r (entries st);
                   edges := edges st |})
    | Raise e => Raise e
    end.

(** [cur.execute(insert_sql, (src_id, dst_id, relation_type))] of the
    edge pass; [raw_payload] is left NULL. *)
Definition execute_insert_edges (src dst kind : string) : M unit :=
  fun st =>
    Ok (tt, {| entries := entries st;
               edges := edges st ++ [{| src_id := src; dst_id := dst;
                                        relation_type := kind;
                                        raw_payload := None |}] |}).

(** [cur.execute(SELECT ..., (lang_code, word)).fetchall()]. *)
Definition execute_select `{SqlEngine} (p_lang_code p_word : pyval)
    : M (list candidate) :=
  fun st =>
    c_lang_code <~ adapt p_lang_code ;;
    c_word <~ adapt p_word ;;
    match text_column c_lang_code, text_column c_word with
    | Some lc, Some w =>
        Ok (map candidate_of
              (select_order (List.filter (where_lang_word lc w) (entries st))),
            st)
    | _, _ => Ok ([], st)
    end.

Definition commit : M unit := ret tt.

(** ** The node pass *)

(** Lines 166-178 and 347-357, the same in both passes: the entry a
    line holds, or [None] when the line is skipped. *)
Definition read_entry `{PyRuntime} (line : string) : res (option pyval) :=
  let line := strip line in
  if String.eqb line "" then Ok None
  else
    match json_loads line with
    | Raise JSONDecodeError => Ok None
    | Raise e => Raise e
    | Ok entry =>
        has_word <~ py_in "word" entry ;;
        if negb has_word then Ok None
        else
          has_lang_code <~ py_in "lang_code" entry ;;
          if negb has_lang_code then Ok None else Ok (Some entry)
    end.

(** The parameters of [insert_sql] for a normalised entry. *)
Definition entries_params (norm : gmap string pyval) : res (list pyval) :=
  id <~ subscript norm "node_id" ;;
  Ok [id; norm_get norm "word"; norm_get norm "lang";
      norm_get norm "lang_code"; norm_get norm "pos";
      norm_get norm "etymology_number"; norm_get norm "etymology_text";
      norm_get norm "etymology_templates"; norm_get norm "derived";
      norm_get norm "descendants"; norm_get norm "alt_of";
      norm_get norm "form_of"; norm_get norm "categories";
      norm_get norm "redirects"; norm_get norm "literal_meaning";
      norm_get norm "wikidata"].

(** Lines 180-201: normalise the entry and upsert it. *)
Definition insert_entry `{PyRuntime} (entry : pyval) : M unit :=
  d <- lift (as_dict entry) ;;
  let norm := normalize_entry d in
  params <- lift (entries_params norm) ;;
  execute_insert_entries params.

Fixpoint insert_entries_loop `{PyRuntime} (f : list string) (count : nat)
    : M nat :=
  match f with
  | [] => ret count
  | line :: f' =>
      r <- lift (read_entry line) ;;
      match r with
      | None => insert_entries_loop f' count
      | Some entry =>
          insert_entry entry ;;;
          let count := S count in
          (if (count mod 5000 =? 0)%nat then commit else ret tt) ;;;
          insert_entries_loop f' count
      end
  end.

(** The node pass over the lines of the corpus; the result is the
    count it prints. *)
Definition insert_entries_from_jsonl `{PyRuntime} (f : list string) : M nat :=
  count <- insert_entries_loop f 0%nat ;;
  commit ;;;
  ret count.

(** ** Edge helpers *)

Definition row_pos (row : candidate) : option string := row.1.2.
Definition row_ety (row : candidate) : option Z := row.2.
Definition row_id (row : candidate) : string := row.1.1.

(** [(row[1] or "") == current_pos]. *)
Definition pos_match (current_pos : pyval) (row : candidate) : bool :=
  py_eq_str current_pos (match row_pos row with Some s => s | None => "" end).

(** The sort key [(r[2] is None, r[2])] and the order of two keys: the
    first components decide unless they are equal. *)
Definition sort_key (r : candidate) : bool * option Z :=
  (match row_ety r with None => true | Some _ => false end, row_ety r).

Definition key_lt (k1 k2 : bool * option Z) : bool :=
  if eqb k1.1 k2.1
  then match k1.2, k2.2 with
       | Some x, Some y => x <? y
       | _, _ => false
       end
  else negb k1.1 && k2.1.

(** [list.sort(key=...)]: a stable sort, hence the one sorted
    arrangement that keeps equal keys in their original order. *)
Fixpoint sort_insert {A} (key : A -> bool * option Z) (x : A) (l : list A)
    : list A :=
  match l with
  | [] => [x]
  | y :: l' =>
      if key_lt (key y) (key x) then y :: sort_insert key x l'
      else x :: l
  end.

Fixpoint py_sort {A} (key : A -> bool * option Z) (l : list A) : list A :=
  match l with
  | [] => []
  | x :: l' => sort_insert key x (py_sort key l')
  end.

(** [(r[2] is None) or (r[2] == 0)]. *)
Definition is_primary (r : candidate) : bool :=
  match row_ety r with
  | None => true
  | Some n => n =? 0
  end.

Definition pick_best (candidates : list candidate) (current_pos : pyval)
    : option string :=
  match candidates with
  | [] => None
  | _ :: _ =>
      let pos_matches :=
        if truthy current_pos
        then List.filter (pos_match current_pos) candidates
        else [] in
      match pos_matches with
      | _ :: _ => row_id <$> head (py_sort sort_key pos_matches)
      | [] =>
          let ety0 := List.filter is_primary candidates in
          match ety0 with
          | _ :: _ => row_id <$> head ety0
          | [] => row_id <$> head candidates
          end
      end
  end.

Definition resolve_target_node `{SqlEngine} (lang_code word current_pos : pyval)
    : M (option string) :=
  if negb (truthy lang_code) || negb (truthy word) then ret None
  else
    rows <- execute_select lang_code word ;;
    match rows with
    | [] => ret None
    | _ => ret (pick_best rows current_pos)
    end.

(** A yielded reference [{"word": ..., "lang_code": ...}]. *)
Record reference := {
  ref_word : pyval;
  ref_lang_code : pyval
}.

(** What one item of a relation list yields, if anything. *)
Definition relation_item `{PyRuntime} (item : pyval) : option reference :=
  match item with
  | PDict d =>
      let word := dict_get d "word" in
      if negb (truthy word) then None
      else
        let lang_code := py_or (dict_get d "lang_code") (dict_get d "lang") in
        Some {| ref_word := word; ref_lang_code := lang_code |}
  | _ => Some {| ref_word := PStr (py_str item); ref_lang_code := PNone |}
  end.

(** The references the generator yields, in order; iterating a value
    that is no container raises before anything is yielded. *)
Definition iter_relation_items `{PyRuntime} (entry : dict) (field : string)
    : res (list reference) :=
  let items := py_or (dict_get entry field) (PList []) in
  items <~ py_iter items ;;
  Ok (omap relation_item items).

(** field_name, relation_type, use_pos_for_matching,
    fallback_to_entry_lang_if_missing *)
Definition RELATION_SPECS : list (string * string * bool * bool) :=
  [ ("alt_of",      "alt_of",     true,  true);
    ("form_of",     "form_of",    true,  true);
    ("redirects",   "redirect",   true,  true);
    ("derived",     "derived",    false, true);
    ("descendants", "descendant", false, false) ].

(** ** The edge pass *)

(** Lines 367-385: one reference of one relation field. *)
Definition insert_edge `{SqlEngine} (src_id : string)
    (current_pos entry_lang : pyval) (relation_type : string)
    (use_pos fallback_entry_lang : bool) (rel : reference)
    (count_edges : nat) : M nat :=
  let target_word := ref_word rel in
  if negb (truthy target_word) then ret count_edges
  else
    let target_lang := ref_lang_code rel in
    let target_lang :=
      if negb (truthy target_lang) && fallback_entry_lang then entry_lang
      else target_lang in
    if negb (truthy target_lang) then ret count_edges
    else
      let pos_for_match := if use_pos then current_pos else PNone in
      dst_id <- resolve_target_node target_lang target_word pos_for_match ;;
      match dst_id with
      | None => ret count_edges
      | Some dst =>
          if String.eqb dst "" then ret count_edges
          else
            execute_insert_edges src_id dst relation_type ;;;
            ret (S count_edges)
      end.

(** Lines 365-385: all references of one relation spec. *)
Definition insert_edges_of_spec `{PyRuntime} `{SqlEngine} (entry : dict)
    (src_id : string) (current_pos entry_lang : pyval)
    (spec : string * string * bool * bool) (count_edges : nat) : M nat :=
  let '(field, relation_type, use_pos, fallback_entry_lang) := spec in
  rels <- lift (iter_relation_items entry field) ;;
  for_each rels
    (insert_edge src_id current_pos entry_lang relation_type use_pos
       fallback_entry_lang)
    count_edges.

(** Lines 360-385: the edges of one entry. *)
Definition insert_edges_of_entry `{PyRuntime} `{SqlEngine} (entry : pyval)
    (count_edges : nat) : M nat :=
  d <- lift (as_dict entry) ;;
  let src_id := make_node_id d in
  let current_pos := dict_get d "pos" in
  let entry_lang := dict_get d "lang_code" in
  for_each RELATION_SPECS
    (insert_edges_of_spec d src_id current_pos entry_lang)
    count_edges.

Fixpoint insert_edges_loop `{PyRuntime} `{SqlEngine} (f : list string)
    (count_edges count_entries : nat) : M (nat * nat) :=
  match f with
  | [] => ret (count_entries, count_edges)
  | line :: f' =>
      r <- lift (read_entry line) ;;
      match r with
      | None => insert_edges_loop f' count_edges count_entries
      | Some entry =>
          let count_entries := S count_entries in
          count_edges <- insert_edges_of_entry entry count_edges ;;
          (if (count_entries mod 2000 =? 0)%nat then commit else ret tt) ;;;
          insert_edges_loop f' count_edges count_entries
      end
  end.

(** The edge pass; the result is the pair of counts it prints,
    entries processed and edges inserted. *)
Definition insert_edges_from_jsonl `{PyRuntime} `{SqlEngine} (f : list string)
    : M (nat * nat) :=
  counts <- insert_edges_loop f 0%nat 0%nat ;;
  commit ;;;
  ret counts.

(** ** The build *)

(** [init_db]: the two tables (and their indexes) are created unless
    they exist.  A database file is [None] before its first
    initialisation, and a store afterwards. *)
Definition init_db (db : option store) : store :=
  match db with
  | Some st => st
  | None => {| entries := []; edges := [] |}
  end.

(** The script: initialise, then the node pass and the edge pass over
    the same file.  The result is the count of the node pass and the
    two counts of the edge pass. *)
Definition main `{PyRuntime} `{SqlEngine} (db : option store) (f : list string)
    : res (nat * (nat * nat) * store) :=
  (inserted <- insert_entries_from_jsonl f ;;
   counts <- insert_edges_from_jsonl f ;;
   ret (inserted, counts)) (init_db db).

(** ** A concrete runtime and engine for running the passes

    [sample_loads] decodes the lines of the sample corpus below as
    [json.loads] does and rejects every other line; [sample_dumps] and
    the [str()] of containers return a fixed text, which no statement
    looks into.  [table_order] returns the rows of a query in table
    order. *)

Definition dq : string := String "034"%char EmptyString.

(** A JSON object text from its members, and a member from its name and
    value text. *)
Definition jmember (name value : string) : string :=
  dq +:+ name +:+ dq +:+ ": " +:+ value.
Definition jtext (s : string) : string := dq +:+ s +:+ dq.
Definition jobject (members : list string) : string :=
  "{" +:+ String.concat ", " members +:+ "}".

(** entry1 and entry2 of the specification's end-to-end example, an
    entry whose only reference is a descendant without a language, and
    a line holding a number. *)
Definition line_foo : string :=
  jobject [jmember "lang_code" (jtext "en"); jmember "word" (jtext "foo");
           jmember "pos" (jtext "noun"); jmember "etymology_number" "0"].
Definition line_bar : string :=
  jobject [jmember "lang_code" (jtext "en"); jmember "word" (jtext "bar");
           jmember "pos" (jtext "verb");
           jmember "derived" ("[" +:+ jtext "foo" +:+ "]")].
Definition line_baz : string :=
  jobject [jmember "lang_code" (jtext "en"); jmember "word" (jtext "baz");
           jmember "descendants" ("[" +:+ jtext "foo" +:+ "]")].
Definition line_number : string := "42".

Definition entry_foo : dict :=
  [("lang_code", PStr "en"); ("word", PStr "foo"); ("pos", PStr "noun");
   ("etymology_number", PInt 0)].
Definition entry_bar : dict :=
  [("lang_code", PStr "en"); ("word", PStr "bar"); ("pos", PStr "verb");
   ("derived", PList [PStr "foo"])].
Definition entry_baz : dict :=
  [("lang_code", PStr "en"); ("word", PStr "baz");
   ("descendants", PList [PStr "foo"])].

Definition sample_loads (line : string) : res pyval :=
  if String.eqb line line_foo then Ok (PDict entry_foo)
  else if String.eqb line line_bar then Ok (PDict entry_bar)
  else if String.eqb line line_baz then Ok (PDict entry_baz)
  else if String.eqb line line_number then Ok (PInt 42)
  else Raise JSONDecodeError.

Definition sample_runtime : PyRuntime :=
  {| json_loads := sample_loads;
     json_dumps := fun _ => "<json>";
     container_str := fun _ => "<container>" |}.

Definition table_order : SqlEngine :=
  {| select_order := fun rows => rows;
     select_order_perm := fun rows => reflexivity rows |}.

Definition empty_store : store := {| entries := []; edges := [] |}.

(** ** Notions the properties are stated with *)

(** The order of the specification on etymology numbers: [a] is no
    larger than [b], an absent number being larger than every defined
    one. *)
Definition ety_le (a b : option Z) : Prop :=
  match a, b with
  | Some x, Some y => x <= y
  | _, None => True
  | None, Some _ => False
  end.

(** The candidate at position [i] is the choice of the first rule for
    the part of speech [s]: it has that part of speech, no candidate
    with that part of speech has a smaller etymology number, and those
    before it in the list have a strictly larger one. *)
Definition least_match (candidates : list candidate) (s : string) (i : nat)
    (best : candidate) : Prop :=
  row_pos best = Some s
  /\ (forall r, r ∈ candidates -> row_pos r = Some s ->
        ety_le (row_ety best) (row_ety r))
  /\ (forall (j : nat) r, (j < i)%nat -> candidates !! j = Some r ->
        row_pos r = Some s -> ~ ety_le (row_ety r) (row_ety best)).

(** The candidate at position [i] is the choice of the fallback rules:
    the first candidate whose etymology number is null or 0, or the
    first candidate of the list when no candidate has such a number. *)
Definition fallback_choice (candidates : list candidate) (i : nat)
    (r : candidate) : Prop :=
  (row_ety r = None \/ row_ety r = Some 0)
  /\ (forall (j : nat) r', (j < i)%nat -> candidates !! j = Some r' ->
        row_ety r' <> None /\ row_ety r' <> Some 0)
  \/ i = 0%nat
     /\ forall r', r' ∈ candidates -> row_ety r' <> None /\ row_ety r' <> Some 0.

(** The value the loop of [normalize_entry] stores under a key. *)
Definition normalized_value `{PyRuntime} (entry : dict) (key : string) : pyval :=
  let value := dict_get entry key in
  if bool_decide (key ∈ JSON_FIELDS)
  then (if is_none value then PNone else PStr (json_dumps value))
  else value.

(** A bare scalar item of a relation list. *)
Definition is_scalar (v : pyval) : Prop :=
  match v with
  | PNone | PBool _ | PInt _ | PStr _ => True
  | PList _ | PDict _ => False
  end.

(** What an item of a relation list yields, in the words of the
    specification.  A structured item whose [word] is a non-empty string
    yields the word with the item's own [lang_code] when that is a
    non-empty string, and otherwise with its [lang] attribute, null
    when it has none; a structured item whose [word] is missing, null
    or empty yields nothing; a bare scalar yields its text and no
    language. *)
Inductive item_yields `{PyRuntime} : pyval -> option reference -> Prop :=
| yields_own_language (d : dict) (w l : string) :
    lookup_key "word" d = Some (PStr w) -> w <> "" ->
    lookup_key "lang_code" d = Some (PStr l) -> l <> "" ->
    item_yields (PDict d)
      (Some {| ref_word := PStr w; ref_lang_code := PStr l |})
| yields_lang_attribute (d : dict) (w : string) (lc : option string) :
    lookup_key "word" d = Some (PStr w) -> w <> "" ->
    dict_get d "lang_code" = opt_str lc -> lc = None \/ lc = Some "" ->
    item_yields (PDict d)
      (Some {| ref_word := PStr w;
               ref_lang_code := match lookup_key "lang" d with
                                | Some v => v
                                | None => PNone
                                end |})
| yields_nothing (d : dict) (w : option string) :
    dict_get d "word" = opt_str w -> w = None \/ w = Some "" ->
    item_yields (PDict d) None
| yields_bare (item : pyval) :
    is_scalar item ->
    item_yields item
      (Some {| ref_word := PStr (py_str item); ref_lang_code := PNone |}).

(** The row an entry is stored as: a function of the entry alone. *)
Definition entry_row `{PyRuntime} (d : dict) : res entries_row :=
  params <~ entries_params (normalize_entry d) ;;
  bind_entries_row params.

Definition node_ids (st : store) : list string := map node_id (entries st).

(** The text SQLite compares a bound value as, in a comparison with a
    text column; [None] for NULL and for a value it cannot bind. *)
Definition sql_text (v : pyval) : option string :=
  match adapt v with
  | Ok c => text_column c
  | Raise _ => None
  end.

(** The language a reference is resolved in: its own, or the citing
    entry's when it has none and the relation inherits. *)
Definition target_language (fallback : bool) (entry_lang : pyval)
    (rel : reference) : pyval :=
  if negb (truthy (ref_lang_code rel)) && fallback then entry_lang
  else ref_lang_code rel.

(** The edge [e] comes from a reference of the entry [d], resolved to a
    row of [table]. *)
Definition edge_from `{PyRuntime} (table : list entries_row) (d : dict)
    (e : edges_row) : Prop :=
  src_id e = make_node_id d
  /\ exists (field kind : string) (use_pos fallback : bool)
       (rels : list reference) (rel : reference) (row : entries_row),
       (field, kind, use_pos, fallback) ∈ RELATION_SPECS
       /\ iter_relation_items d field = Ok rels /\ rel ∈ rels
       /\ relation_type e = kind
       /\ row ∈ table /\ dst_id e = node_id row
       /\ sql_text (ref_word rel) = Some (word row)
       /\ sql_text (target_language fallback (dict_get d "lang_code") rel)
          = Some (lang_code row).

(** From [st0] to [st] the nodes are untouched and the edges added all
    satisfy [G]. *)
Definition added (G : edges_row -> Prop) (st0 st : store) : Prop :=
  entries st = entries st0
  /\ exists new : list edges_row,
       edges st = edges st0 ++ new /\ forall e, e ∈ new -> G e.

(** The citing entries of a corpus: the dicts its lines hold. *)
Definition cited `{PyRuntime} (f : list string) (d : dict) : Prop :=
  exists line, line ∈ f /\ read_entry line = Ok (Some (PDict d)).

(** *** The passes as functions of the corpus *)

(** A line holds an entry: it is neither skipped nor fatal. *)
Definition holds_entry `{PyRuntime} (line : string) : bool :=
  match read_entry line with
  | Ok (Some _) => true
  | _ => false
  end.

(** The rows the lines of a corpus are stored as, in the order of the
    lines, or the first exception met. *)
Fixpoint corpus_rows `{PyRuntime} (f : list string) : res (list entries_row) :=
  match f with
  | [] => Ok []
  | line :: f' =>
      r <~ read_entry line ;;
      match r with
      | None => corpus_rows f'
      | Some entry =>
          d <~ as_dict entry ;;
          row <~ entry_row d ;;
          rows <~ corpus_rows f' ;;
          Ok (row :: rows)
      end
  end.

(** The table after the upserts of [rows], one after the other. *)
Definition upsert_all (table rows : list entries_row) : list entries_row :=
  fold_left (fun t r => insert_or_replace r t) rows table.

(** The store with the edges [es] added after its own. *)
Definition with_edges (st : store) (es : list edges_row) : store :=
  {| entries := entries st; edges := edges st ++ es |}.

(** What a query, a resolution and the handling of one reference
    compute from the table of nodes. *)
Definition select_in `{SqlEngine} (table : list entries_row) (a b : pyval)
    : res (list candidate) :=
  ca <~ adapt a ;;
  cb <~ adapt b ;;
  match text_column ca, text_column cb with
  | Some lc, Some w =>
      Ok (map candidate_of
            (select_order (List.filter (where_lang_word lc w) table)))
  | _, _ => Ok []
  end.

Definition resolve_in `{SqlEngine} (table : list entries_row)
    (a b current_pos : pyval) : res (option string) :=
  if negb (truthy a) || negb (truthy b) then Ok None
  else
    rows <~ select_in table a b ;;
    match rows with
    | [] => Ok None
    | _ => Ok (pick_best rows current_pos)
    end.

(** The edges one reference gives: none or one. *)
Definition edge_in `{SqlEngine} (table : list entries_row) (src : string)
    (current_pos entry_lang : pyval) (kind : string)
    (use_pos fallback : bool) (rel : reference) : res (list edges_row) :=
  if negb (truthy (ref_word rel)) then Ok []
  else
    let target := target_language fallback entry_lang rel in
    if negb (truthy target) then Ok []
    else
      dst <~ resolve_in table target (ref_word rel)
               (if use_pos then current_pos else PNone) ;;
      match dst with
      | None => Ok []
      | Some dst =>
          if String.eqb dst "" then Ok []
          else Ok [{| src_id := src; dst_id := dst; relation_type := kind;
                      raw_payload := None |}]
      end.

(** The edges of the items of a list, one item after the other. *)
Fixpoint collect {A} (g : A -> res (list edges_row)) (l : list A)
    : res (list edges_row) :=
  match l with
  | [] => Ok []
  | x :: l' => es <~ g x ;; rest <~ collect g l' ;; Ok (es ++ rest)
  end.

Definition spec_edges `{PyRuntime} `{SqlEngine} (table : list entries_row)
    (d : dict) (spec : string * string * bool * bool) : res (list edges_row) :=
  let '(field, kind, use_pos, fallback) := spec in
  rels <~ iter_relation_items d field ;;
  collect (edge_in table (make_node_id d) (dict_get d "pos")
             (dict_get d "lang_code") kind use_pos fallback) rels.

Definition entry_edges `{PyRuntime} `{SqlEngine} (table : list entries_row)
    (entry : pyval) : res (list edges_row) :=
  d <~ as_dict entry ;;
  collect (spec_edges table d) RELATION_SPECS.

(** The edges a corpus gives on a table of nodes, in the order the
    edge pass inserts them, or the first exception met. *)
Fixpoint corpus_edges `{PyRuntime} `{SqlEngine} (table : list entries_row)
    (f : list string) : res (list edges_row) :=
  match f with
  | [] => Ok []
  | line :: f' =>
      r <~ read_entry line ;;
      match r with
      | None => corpus_edges table f'
      | Some entry =>
          es <~ entry_edges table entry ;;
          rest <~ corpus_edges table f' ;;
          Ok (es ++ rest)
      end
  end.

(** *** Typed entries *)

(** No character of the string is a colon. *)
Fixpoint colon_free (s : string) : Prop :=
  match s with
  | EmptyString => True
  | String c s' => c <> ":"%char /\ colon_free s'
  end.

(** The scalar attributes of an entry other than [word] and
    [lang_code], as the schema types them. *)
Record scalars := {
  s_lang : option string;
  s_pos : option string;
  s_etymology_number : option Z;
  s_etymology_text : option string;
  s_literal_meaning : option string;
  s_wikidata : option string
}.

(** The entry [d] has the scalar attributes [a], a missing or null
    attribute being [None], and its etymology number fits 64 bits. *)
Definition has_scalars (d : dict) (a : scalars) : Prop :=
  dict_get d "lang" = opt_str (s_lang a)
  /\ dict_get d "pos" = opt_str (s_pos a)
  /\ dict_get d "etymology_number" = opt_int (s_etymology_number a)
  /\ (forall n, s_etymology_number a = Some n -> - 2 ^ 63 <= n < 2 ^ 63)
  /\ dict_get d "etymology_text" = opt_str (s_etymology_text a)
  /\ dict_get d "literal_meaning" = opt_str (s_literal_meaning a)
  /\ dict_get d "wikidata" = opt_str (s_wikidata a).

(** What a JSON-encoded column holds for an attribute of the entry. *)
Definition json_column `{PyRuntime} (d : dict) (key : string) : option string :=
  match dict_get d key with
  | PNone => None
  | value => Some (json_dumps value)
  end.

(** The row of a typed entry, attribute by attribute. *)
Definition typed_row `{PyRuntime} (d : dict) (w lc : string) (a : scalars)
    : entries_row :=
  {| node_id := make_node_id d; word := w; lang := s_lang a; lang_code := lc;
     pos := s_pos a; etymology_number := s_etymology_number a;
     etymology_text := s_etymology_text a;
     etymology_templates := json_column d "etymology_templates";
     derived := json_column d "derived";
     descendants := json_column d "descendants";
     alt_of := json_column d "alt_of";
     form_of := json_column d "form_of";
     categories := json_column d "categories";
     redirects := json_column d "redirects";
     literal_meaning := s_literal_meaning a;
     wikidata := s_wikidata a |}.

(** * Properties *)

(** ** Node identity *)

Lemma py_or_opt_str `{PyRuntime} (o : option string) :
  py_str (py_or (opt_str o) (PStr "")) = default "" o.
Proof.
  destruct o as [s|]; [|reflexivity].
  unfold py_or; simpl. destruct (String.eqb_spec s ""); simpl; congruence.
Qed.

(** C3. The node identity is [lang_code:word:pos:etymology_number], the
    three text attributes defaulting to the empty string when absent or
    null and the etymology number to 0; and it depends on the entry only
    through these four attributes, so two entries (or the same entry twice)
    that agree on them get the same identity. *)
Theorem make_node_id_formula `{PyRuntime} (entry : dict)
    (lc w p : option string) (n : option Z) :
  dict_get entry "lang_code" = opt_str lc ->
  dict_get entry "word" = opt_str w ->
  dict_get entry "pos" = opt_str p ->
  dict_get entry "etymology_number" = opt_int n ->
  make_node_id entry = identity_spec lc w p n
  /\ forall entry' : dict,
       dict_get entry' "lang_code" = dict_get entry "lang_code" ->
       dict_get entry' "word" = dict_get entry "word" ->
       dict_get entry' "pos" = dict_get entry "pos" ->
       dict_get entry' "etymology_number" = dict_get entry "etymology_number" ->
       make_node_id entry' = make_node_id entry.
Proof.
  intros Hl Hw Hp Hn. split.
  - unfold make_node_id, identity_spec.
    rewrite Hl, Hw, Hp, Hn, !py_or_opt_str.
    destruct n; reflexivity.
  - intros entry' El Ew Ep En. unfold make_node_id.
    rewrite El, Ew, Ep, En. reflexivity.
Qed.

Lemma make_node_id_formula_witness :
  @make_node_id sample_runtime entry_bar = "en:bar:verb:0"
  /\ @make_node_id sample_runtime
       (("gloss", PStr "a drinking place") :: entry_bar)
     = @make_node_id sample_runtime entry_bar.
Proof.
  destruct (@make_node_id_formula sample_runtime entry_bar
              (Some "en") (Some "bar") (Some "verb") None
              eq_refl eq_refl eq_refl eq_refl) as [Hid Hsame].
  split.
  - exact Hid.
  - apply Hsame; reflexivity.
Defined.

(** ** Candidate choice *)

Lemma truthy_PStr (s : string) : s <> "" -> truthy (PStr s) = true.
Proof.
  intros Hs. simpl.
  destruct (String.eqb_spec s ""); [contradiction | reflexivity].
Qed.

Lemma key_lt_sort_key (a b : candidate) :
  key_lt (sort_key a) (sort_key b) = true <-> ~ ety_le (row_ety b) (row_ety a).
Proof.
  unfold key_lt, sort_key, ety_le; simpl.
  destruct (row_ety a) as [x|], (row_ety b) as [y|]; simpl;
    rewrite ?Z.ltb_lt; intuition (try lia; try discriminate).
Qed.

Lemma key_lt_sort_key_false (a b : candidate) :
  key_lt (sort_key a) (sort_key b) = false <-> ety_le (row_ety b) (row_ety a).
Proof.
  unfold key_lt, sort_key, ety_le; simpl.
  destruct (row_ety a) as [x|], (row_ety b) as [y|]; simpl;
    rewrite ?Z.ltb_ge; intuition (try lia; try discriminate).
Qed.

Lemma ety_le_trans (a b c : option Z) : ety_le a b -> ety_le b c -> ety_le a c.
Proof. destruct a, b, c; simpl; intros; try tauto; lia. Qed.

Lemma ety_le_refl (a : option Z) : ety_le a a.
Proof. destruct a; simpl; [lia | exact I]. Qed.

Lemma ety_le_total (a b : option Z) : ety_le a b \/ ety_le b a.
Proof. destruct a, b; simpl; try tauto; lia. Qed.

(** [py_sort] rearranges its list by non-decreasing key, which with
    the way [sort_insert] places equal keys makes it the stable sort. *)
Lemma sort_insert_perm {A} (key : A -> bool * option Z) (x : A) (l : list A) :
  sort_insert key x l ≡ₚ x :: l.
Proof.
  induction l as [|y l IH]; [reflexivity|]. simpl.
  destruct (key_lt (key y) (key x)); [|reflexivity].
  rewrite IH. apply Permutation_swap.
Qed.

Lemma py_sort_perm {A} (key : A -> bool * option Z) (l : list A) :
  py_sort key l ≡ₚ l.
Proof.
  induction l as [|x l IH]; [reflexivity|]. simpl.
  rewrite sort_insert_perm, IH. reflexivity.
Qed.

Lemma py_sort_sorted (l : list candidate) :
  StronglySorted (fun a b => ety_le (row_ety a) (row_ety b))
    (py_sort sort_key l).
Proof.
  induction l as [|x l IH]; [constructor|]. simpl.
  induction IH as [|y s Hs IHs Hy]; simpl.
  - constructor; constructor.
  - destruct (key_lt (sort_key y) (sort_key x)) eqn:Ek.
    + apply key_lt_sort_key in Ek. constructor; [exact IHs|].
      apply Forall_forall. intros z Hz.
      rewrite sort_insert_perm in Hz. apply elem_of_cons in Hz as [->|Hz].
      * destruct (ety_le_total (row_ety y) (row_ety x)); tauto.
      * apply (proj1 (Forall_forall _ _) Hy z Hz).
    + apply key_lt_sort_key_false in Ek. constructor.
      * constructor; assumption.
      * constructor; [exact Ek|].
        eapply Forall_impl; [exact Hy|].
        intros z Hz. eapply ety_le_trans; eassumption.
Qed.

Lemma head_sort_insert {A} (key : A -> bool * option Z) (x : A) (l : list A) :
  head (sort_insert key x l)
  = Some (match l with
          | [] => x
          | y :: _ => if key_lt (key y) (key x) then y else x
          end).
Proof. destruct l as [|y l]; simpl; [|destruct (key_lt _ _)]; reflexivity. Qed.

Lemma py_sort_nil_inv {A} (key : A -> bool * option Z) (l : list A) :
  py_sort key l = [] -> l = [].
Proof.
  destruct l as [|x l]; [reflexivity|]. simpl.
  intros E. apply (f_equal head) in E. rewrite head_sort_insert in E.
  discriminate.
Qed.

Lemma filter_nil_inv {A} (P : A -> bool) (l : list A) (r : A) :
  List.filter P l = [] -> r ∈ l -> P r = false.
Proof.
  intros E Hr. destruct (P r) eqn:EP; [|reflexivity].
  assert (In r (List.filter P l)) as Hin.
  { apply filter_In. split; [apply list_elem_of_In, Hr | exact EP]. }
  rewrite E in Hin. destruct Hin.
Qed.

Lemma filter_nil_iff {A} (P : A -> bool) (l : list A) :
  List.filter P l = [] <-> forall r, r ∈ l -> P r = false.
Proof.
  split.
  - intros E r Hr. eapply filter_nil_inv; eauto.
  - intros Hall. induction l as [|x l IH]; [reflexivity|]. simpl.
    rewrite (Hall x) by apply list_elem_of_here.
    apply IH. intros r Hr. apply Hall. apply elem_of_cons. right. exact Hr.
Qed.

(** The head of the sorted matches is the first of the smallest
    matches of the list. *)
Lemma py_sort_filter_head (P : candidate -> bool) (l : list candidate)
    (m : candidate) :
  head (py_sort sort_key (List.filter P l)) = Some m ->
  exists i : nat,
    l !! i = Some m /\ P m = true
    /\ (forall r, r ∈ l -> P r = true -> ety_le (row_ety m) (row_ety r))
    /\ (forall (j : nat) r, (j < i)%nat -> l !! j = Some r -> P r = true ->
          ~ ety_le (row_ety r) (row_ety m)).
Proof.
  revert m. induction l as [|x l IH]; intros m; simpl; [discriminate|].
  destruct (P x) eqn:Px.
  - simpl. rewrite head_sort_insert.
    destruct (py_sort sort_key (List.filter P l)) as [|y s] eqn:Es.
    + intros [= <-]. exists 0%nat. repeat split; trivial.
      * intros r Hr Pr. apply elem_of_cons in Hr as [->|Hr].
        { apply ety_le_refl. }
        apply py_sort_nil_inv in Es.
        rewrite (filter_nil_inv P l r Es Hr) in Pr. discriminate.
      * intros j r Hj. lia.
    + destruct (IH y eq_refl) as (i & Hi & Py & Hmin & Hfirst).
      destruct (key_lt (sort_key y) (sort_key x)) eqn:Ek; intros [= <-].
      * apply key_lt_sort_key in Ek.
        exists (S i). repeat split; trivial.
        { intros r Hr Pr. apply elem_of_cons in Hr as [->|Hr]; [|auto].
          destruct (ety_le_total (row_ety y) (row_ety x)); tauto. }
        { intros [|j] r Hj Hr Pr; simpl in Hr.
          - injection Hr as <-. exact Ek.
          - apply (Hfirst j r); [lia | exact Hr | exact Pr]. }
      * apply key_lt_sort_key_false in Ek.
        exists 0%nat. repeat split; trivial.
        { intros r Hr Pr. apply elem_of_cons in Hr as [->|Hr].
          - apply ety_le_refl.
          - eapply ety_le_trans; [exact Ek | auto]. }
        { intros j r Hj. lia. }
  - intros Hm. destruct (IH m Hm) as (i & Hi & Pm & Hmin & Hfirst).
    exists (S i). repeat split; trivial.
    + intros r Hr Pr. apply elem_of_cons in Hr as [->|Hr]; [congruence | auto].
    + intros [|j] r Hj Hr Pr; simpl in Hr.
      * injection Hr as <-. congruence.
      * apply (Hfirst j r); [lia | exact Hr | exact Pr].
Qed.

Lemma filter_head_first {A} (P : A -> bool) (l : list A) (r : A) :
  head (List.filter P l) = Some r ->
  exists i : nat,
    l !! i = Some r /\ P r = true
    /\ forall (j : nat) r', (j < i)%nat -> l !! j = Some r' -> P r' = false.
Proof.
  induction l as [|x l IH]; simpl; [discriminate|].
  destruct (P x) eqn:Px; simpl.
  - intros [= <-]. exists 0%nat. repeat split; trivial. intros j r' Hj. lia.
  - intros Hr. destruct (IH Hr) as (i & Hi & Pr & Hfirst).
    exists (S i). repeat split; trivial.
    intros [|j] r' Hj Hr'; simpl in Hr'.
    + injection Hr' as <-. exact Px.
    + apply (Hfirst j); [lia | exact Hr'].
Qed.

Lemma pos_match_str (s : string) (r : candidate) :
  s <> "" -> pos_match (PStr s) r = true <-> row_pos r = Some s.
Proof.
  intros Hs. unfold pos_match, py_eq_str. rewrite String.eqb_eq.
  destruct (row_pos r) as [s'|]; split; congruence.
Qed.

Lemma is_primary_spec (r : candidate) :
  is_primary r = true <-> row_ety r = None \/ row_ety r = Some 0.
Proof.
  unfold is_primary. destruct (row_ety r) as [n|].
  - rewrite Z.eqb_eq. split; [intros ->; auto | intros [|]; congruence].
  - split; auto.
Qed.

Lemma is_primary_false (r : candidate) :
  is_primary r = false -> row_ety r <> None /\ row_ety r <> Some 0.
Proof.
  intros E. split; intros E'; assert (is_primary r = true) as E''
    by (apply is_primary_spec; auto); congruence.
Qed.

Lemma head_py_sort {A} (key : A -> bool * option Z) (l : list A) :
  l <> [] -> exists m, head (py_sort key l) = Some m.
Proof.
  destruct l as [|x l]; [congruence|]. intros _. simpl.
  rewrite head_sort_insert. eauto.
Qed.

Lemma pick_best_some (candidates : list candidate) (current_pos : pyval) :
  candidates <> [] ->
  exists r, r ∈ candidates /\ pick_best candidates current_pos = Some (row_id r).
Proof.
  intros Hne.
  assert (forall r, r ∈ candidates -> r ∈ candidates) as Hsub by auto.
  unfold pick_best. destruct candidates as [|c cs] eqn:Ec; [congruence|].
  rewrite <- Ec in *. clear Hne.
  destruct (if truthy current_pos
            then List.filter (pos_match current_pos) candidates
            else []) as [|q qs] eqn:Epm.
  - destruct (List.filter is_primary candidates) as [|p ps] eqn:Ef.
    + exists c. split; [rewrite Ec; apply list_elem_of_here | rewrite Ec; reflexivity].
    + exists p. split; [|reflexivity].
      apply list_elem_of_In.
      apply (proj1 (filter_In is_primary p candidates)).
      rewrite Ef. left. reflexivity.
  - destruct (head_py_sort sort_key (q :: qs)) as [m Hm]; [discriminate|].
    rewrite Hm. exists m. split; [|reflexivity].
    destruct (truthy current_pos); [|discriminate].
    rewrite <- Epm in Hm.
    destruct (py_sort_filter_head _ _ _ Hm) as (i & Hi & _).
    eapply list_elem_of_lookup_2, Hi.
Qed.

(** C1. With a non-empty [current_pos] that some candidate carries,
    [pick_best] returns the node id of a candidate [best] with that part
    of speech whose etymology number is the smallest among the candidates
    with that part of speech (an absent number counting as larger than
    every defined one), and which is the first such candidate in the
    order of the list: every earlier candidate with that part of speech
    has a strictly larger number. *)
Theorem pick_best_pos_match (candidates : list candidate) (s : string) :
  s <> "" ->
  (exists r, r ∈ candidates /\ row_pos r = Some s) ->
  exists (i : nat) (best : candidate),
    candidates !! i = Some best
    /\ pick_best candidates (PStr s) = Some (row_id best)
    /\ least_match candidates s i best.
Proof.
  intros Hs (r0 & Hr0 & Hpos0).
  assert (truthy (PStr s) = true) as Ht by (apply truthy_PStr, Hs).
  assert (List.filter (pos_match (PStr s)) candidates <> []) as Hne.
  { intros E. apply (filter_nil_inv _ _ r0 E) in Hr0.
    apply (pos_match_str s r0 Hs) in Hpos0. congruence. }
  destruct (head_py_sort sort_key _ Hne) as [best Hbest].
  destruct (py_sort_filter_head _ _ _ Hbest) as (i & Hi & Pb & Hmin & Hfirst).
  exists i, best. split; [exact Hi|]. split.
  - unfold pick_best. destruct candidates as [|c cs]; [discriminate Hi|].
    rewrite Ht.
    destruct (List.filter (pos_match (PStr s)) (c :: cs)) eqn:Ef; [congruence|].
    rewrite Hbest. reflexivity.
  - split; [apply pos_match_str in Pb; auto|]. split.
    + intros r Hr Hp. apply Hmin; [exact Hr | apply pos_match_str; auto].
    + intros j r Hj Hr Hp. apply (Hfirst j r Hj Hr). apply pos_match_str; auto.
Qed.

Lemma pick_best_pos_match_witness :
  exists (i : nat) (best : candidate),
    [("A", Some "noun", Some 1); ("B", Some "noun", Some 0);
     ("C", Some "verb", Some 0)] !! i = Some best
    /\ pick_best [("A", Some "noun", Some 1); ("B", Some "noun", Some 0);
                  ("C", Some "verb", Some 0)] (PStr "noun")
       = Some (row_id best)
    /\ least_match [("A", Some "noun", Some 1); ("B", Some "noun", Some 0);
                    ("C", Some "verb", Some 0)] "noun" i best.
Proof.
  apply (pick_best_pos_match
           [("A", Some "noun", Some 1); ("B", Some "noun", Some 0);
            ("C", Some "verb", Some 0)] "noun").
  - discriminate.
  - exists ("A", Some "noun", Some 1). split; [apply list_elem_of_here | reflexivity].
Defined.

(** The tie-break example of the specification. *)
Example pick_best_tie_break :
  pick_best [("A", Some "noun", Some 1); ("B", Some "noun", Some 0);
             ("C", Some "verb", Some 0)] (PStr "noun") = Some "B".
Proof. reflexivity. Qed.

Lemma fallback_choice_exists (candidates : list candidate) :
  candidates <> [] ->
  exists (i : nat) (r : candidate),
    candidates !! i = Some r
    /\ match List.filter is_primary candidates with
       | _ :: _ => row_id <$> head (List.filter is_primary candidates)
       | [] => row_id <$> head candidates
       end = Some (row_id r)
    /\ fallback_choice candidates i r.
Proof.
  intros Hne. destruct (List.filter is_primary candidates) as [|p ps] eqn:Ef.
  - destruct candidates as [|c cs]; [congruence|].
    exists 0%nat, c. split; [reflexivity|]. split; [reflexivity|].
    right. split; [reflexivity|].
    intros r' Hr'. apply is_primary_false. eapply filter_nil_inv; eauto.
  - destruct (filter_head_first is_primary candidates p) as (i & Hi & Pp & Hfirst).
    { rewrite Ef. reflexivity. }
    exists i, p. split; [exact Hi|]. split; [reflexivity|].
    left. split; [apply is_primary_spec, Pp|].
    intros j r' Hj Hr'. apply is_primary_false. eauto.
Qed.

(** C2. On a non-empty list [pick_best] returns the node id of one of
    the candidates.  When no part of speech is supplied, or no candidate
    matches it, that candidate is the first in list order whose
    etymology number is null or 0, and the first candidate of the list
    when there is none. *)
Theorem pick_best_fallback (candidates : list candidate) (current_pos : pyval) :
  candidates <> [] ->
  (exists r, r ∈ candidates
     /\ pick_best candidates current_pos = Some (row_id r))
  /\ (truthy current_pos = false
      \/ (forall r, r ∈ candidates -> pos_match current_pos r = false) ->
      exists (i : nat) (r : candidate),
        candidates !! i = Some r
        /\ pick_best candidates current_pos = Some (row_id r)
        /\ fallback_choice candidates i r).
Proof.
  intros Hne. split; [apply pick_best_some, Hne|].
  intros Hno.
  assert ((if truthy current_pos
           then List.filter (pos_match current_pos) candidates
           else []) = []) as Epm.
  { destruct Hno as [->|Hno]; [reflexivity|].
    destruct (truthy current_pos); [|reflexivity].
    apply filter_nil_iff, Hno. }
  unfold pick_best. destruct candidates as [|c cs] eqn:Ec; [congruence|].
  rewrite <- Ec in *. rewrite Epm. apply fallback_choice_exists, Hne.
Qed.

Lemma pick_best_fallback_witness :
  (exists r, r ∈ [("A", Some "verb", Some 2); ("B", Some "adj", None)]
     /\ pick_best [("A", Some "verb", Some 2); ("B", Some "adj", None)]
          (PStr "noun") = Some (row_id r))
  /\ (truthy (PStr "noun") = false
      \/ (forall r, r ∈ [("A", Some "verb", Some 2); ("B", Some "adj", None)] ->
            pos_match (PStr "noun") r = false) ->
      exists (i : nat) (r : candidate),
        [("A", Some "verb", Some 2); ("B", Some "adj", None)] !! i = Some r
        /\ pick_best [("A", Some "verb", Some 2); ("B", Some "adj", None)]
             (PStr "noun") = Some (row_id r)
        /\ fallback_choice [("A", Some "verb", Some 2); ("B", Some "adj", None)]
             i r).
Proof.
  apply (pick_best_fallback
           [("A", Some "verb", Some 2); ("B", Some "adj", None)] (PStr "noun")).
  discriminate.
Defined.

(** The two fallback examples of the specification. *)
Example pick_best_primary_fallback :
  pick_best [("A", Some "verb", Some 2); ("B", Some "adj", None)] (PStr "noun")
  = Some "B".
Proof. reflexivity. Qed.

Example pick_best_final_fallback :
  pick_best [("A", Some "verb", Some 5)] (PStr "noun") = Some "A".
Proof. reflexivity. Qed.

(** ** Entry normalisation *)

Lemma normalize_key_insert `{PyRuntime} (entry : dict) (key : string)
    (out : gmap string pyval) :
  normalize_key entry key out = <[key := normalized_value entry key]> out.
Proof.
  unfold normalize_key, normalized_value.
  destruct (bool_decide (key ∈ JSON_FIELDS)); reflexivity.
Qed.

(** The loop visits the keys in an order the set does not fix; what it
    builds does not depend on it. *)
Lemma normalize_fold_lookup `{PyRuntime} (entry : dict) (keys : gset string)
    (k : string) :
  set_fold (normalize_key entry) (∅ : gmap string pyval) keys !! k
  = if decide (k ∈ keys) then Some (normalized_value entry k) else None.
Proof.
  revert keys k.
  apply (set_fold_ind_L
           (fun (out : gmap string pyval) (X : gset string) =>
              forall k, out !! k
                        = if decide (k ∈ X) then Some (normalized_value entry k)
                          else None)).
  - intros k. rewrite lookup_empty. case_decide; [set_solver | reflexivity].
  - intros x X out Hx IH k. rewrite normalize_key_insert.
    destruct (decide (x = k)) as [->|Hne].
    + rewrite lookup_insert_eq.
      case_decide; [reflexivity | set_solver].
    + rewrite lookup_insert_ne by done. rewrite IH.
      destruct (decide (k ∈ X)) as [Hk|Hk]; case_decide as Hk'; try reflexivity.
      * destruct Hk'. apply elem_of_union. right. exact Hk.
      * apply elem_of_union in Hk' as [Hk'|Hk']; [|contradiction].
        apply elem_of_singleton in Hk'. congruence.
Qed.

Lemma node_id_not_target : "node_id" ∉ TARGET_KEYS.
Proof.
  apply (bool_decide_eq_false_1 ("node_id" ∈ TARGET_KEYS)).
  vm_compute. reflexivity.
Qed.

Lemma JSON_FIELDS_target : JSON_FIELDS ⊆ TARGET_KEYS.
Proof.
  apply (bool_decide_eq_true_1 (JSON_FIELDS ⊆ TARGET_KEYS)).
  vm_compute. reflexivity.
Qed.

Lemma normalize_entry_lookup `{PyRuntime} (entry : dict) (key : string) :
  key ∈ TARGET_KEYS ->
  normalize_entry entry !! key = Some (normalized_value entry key).
Proof.
  intros Hk. unfold normalize_entry. rewrite lookup_insert_ne.
  - rewrite normalize_fold_lookup. destruct (decide (key ∈ TARGET_KEYS)); done.
  - intros <-. exact (node_id_not_target Hk).
Qed.

Lemma normalize_entry_node_id `{PyRuntime} (entry : dict) :
  normalize_entry entry !! "node_id" = Some (PStr (make_node_id entry)).
Proof. unfold normalize_entry. apply lookup_insert_eq. Qed.

(** C9. The normalised record has exactly the allow-listed attributes
    and [node_id], which is the node identity.  Each of the seven
    JSON-encoded attributes holds the serialised value when the entry
    has one and null when the attribute is missing or null; every other
    allow-listed attribute holds the entry's value unchanged, null for a
    missing or null one. *)
Theorem normalize_entry_projection `{PyRuntime} (entry : dict) :
  dom (normalize_entry entry) = TARGET_KEYS ∪ {["node_id"]}
  /\ normalize_entry entry !! "node_id" = Some (PStr (make_node_id entry))
  /\ size JSON_FIELDS = 7%nat
  /\ JSON_FIELDS ⊆ TARGET_KEYS
  /\ (forall key, key ∈ JSON_FIELDS ->
        normalize_entry entry !! key
        = Some (match lookup_key key entry with
                | None | Some PNone => PNone
                | Some value => PStr (json_dumps value)
                end))
  /\ (forall key, key ∈ TARGET_KEYS -> key ∉ JSON_FIELDS ->
        normalize_entry entry !! key
        = Some (match lookup_key key entry with
                | None => PNone
                | Some value => value
                end)).
Proof.
  split; [|split; [|split; [|split; [|split]]]].
  - apply set_eq. intros k. rewrite elem_of_dom, elem_of_union, elem_of_singleton.
    unfold normalize_entry. destruct (decide (k = "node_id")) as [->|Hne].
    + rewrite lookup_insert_eq. split; [auto | eauto].
    + rewrite lookup_insert_ne by done. rewrite normalize_fold_lookup.
      destruct (decide (k ∈ TARGET_KEYS)) as [Hk|Hk].
      * split; [auto | eauto].
      * split; [intros [v Hv]; discriminate | intros [?|?]; done].
  - apply normalize_entry_node_id.
  - vm_compute. reflexivity.
  - exact JSON_FIELDS_target.
  - intros key Hk. rewrite normalize_entry_lookup by (apply JSON_FIELDS_target, Hk).
    unfold normalized_value, dict_get. rewrite bool_decide_eq_true_2 by exact Hk.
    destruct (lookup_key key entry) as [[]|]; reflexivity.
  - intros key Hk Hj. rewrite normalize_entry_lookup by exact Hk.
    unfold normalized_value, dict_get. rewrite bool_decide_eq_false_2 by exact Hj.
    destruct (lookup_key key entry); reflexivity.
Qed.

(** ** Reference extraction *)

Lemma dict_get_some (d : dict) (k : string) (v : pyval) :
  lookup_key k d = Some v -> dict_get d k = v.
Proof. unfold dict_get. intros ->. reflexivity. Qed.

Lemma truthy_opt_str_empty (o : option string) :
  o = None \/ o = Some "" -> truthy (opt_str o) = false.
Proof. intros [-> | ->]; reflexivity. Qed.

Lemma item_yields_relation_item `{PyRuntime} (item : pyval)
    (out : option reference) :
  item_yields item out -> relation_item item = out.
Proof.
  intros Hy.
  destruct Hy as [d w l Hw Hne Hl Hle|d w lc Hw Hne Hl Hlc|d w Hw Hwe|item Hs].
  - unfold relation_item, py_or.
    rewrite (dict_get_some d "word" _ Hw), (dict_get_some d "lang_code" _ Hl).
    rewrite !truthy_PStr by assumption. reflexivity.
  - unfold relation_item, py_or.
    rewrite (dict_get_some d "word" _ Hw), Hl.
    rewrite truthy_PStr by assumption.
    rewrite (truthy_opt_str_empty lc Hlc). reflexivity.
  - unfold relation_item. rewrite Hw, (truthy_opt_str_empty w Hwe).
    reflexivity.
  - destruct item; simpl in Hs; try contradiction; reflexivity.
Qed.

(** C5. An absent (or null) field yields the empty sequence.  For a
    field holding a list, the extractor yields, in the order of the
    list, what each item yields: a structured item with a non-empty
    word gives the word with the item's own language code, falling back
    to its language attribute and otherwise null; a structured item
    whose word is empty or missing is skipped; a bare scalar gives its
    text with a null language.  The extractor is a function of the
    entry and the field alone: it neither reads nor changes any state. *)
Theorem iter_relation_items_yields `{PyRuntime} (entry : dict) (field : string) :
  (lookup_key field entry = None \/ lookup_key field entry = Some PNone ->
     iter_relation_items entry field = Ok [])
  /\ (forall (items : list pyval) (outs : list (option reference)),
        lookup_key field entry = Some (PList items) ->
        Forall2 item_yields items outs ->
        iter_relation_items entry field = Ok (omap id outs)).
Proof.
  split.
  - intros Hf. unfold iter_relation_items, dict_get.
    destruct Hf as [-> | ->]; reflexivity.
  - intros items outs Hf Hy. unfold iter_relation_items, dict_get. rewrite Hf.
    assert (omap relation_item items = omap id outs) as E.
    { clear Hf. induction Hy as [|item out items outs Hitem _ IH]; [reflexivity|].
      rewrite <- (item_yields_relation_item item out Hitem).
      simpl. destruct (relation_item item); simpl; [f_equal|]; exact IH. }
    rewrite <- E. unfold py_or. destruct items; reflexivity.
Qed.

(** The extraction example of the specification: a bare string and a
    structured item. *)
Lemma iter_relation_items_yields_witness :
  @iter_relation_items sample_runtime
    [("word", PStr "x");
     ("derived",
      PList [PStr "foo"; PDict [("word", PStr "bar"); ("lang_code", PStr "en")]])]
    "derived"
  = Ok [ {| ref_word := PStr "foo"; ref_lang_code := PNone |};
         {| ref_word := PStr "bar"; ref_lang_code := PStr "en" |} ].
Proof.
  apply (proj2 (@iter_relation_items_yields sample_runtime _ "derived")
           [PStr "foo"; PDict [("word", PStr "bar"); ("lang_code", PStr "en")]]
           [Some {| ref_word := PStr "foo"; ref_lang_code := PNone |};
            Some {| ref_word := PStr "bar"; ref_lang_code := PStr "en" |}]).
  - reflexivity.
  - constructor; [|constructor; [|constructor]].
    + apply (@yields_bare sample_runtime (PStr "foo")). exact I.
    + apply (@yields_own_language sample_runtime _ "bar" "en");
        (reflexivity || discriminate).
Defined.

(** ** The cursor monad *)

Lemma bind_ok {A B} (m : M A) (k : A -> M B) (st : store) (b : B) (st' : store) :
  bind m k st = Ok (b, st') ->
  exists (a : A) (st1 : store), m st = Ok (a, st1) /\ k a st1 = Ok (b, st').
Proof.
  unfold bind. destruct (m st) as [[a st1]|e]; [|discriminate].
  intros Hk. exists a, st1. split; [reflexivity | exact Hk].
Qed.

Lemma ret_ok {A} (a b : A) (st st' : store) :
  ret a st = Ok (b, st') -> b = a /\ st' = st.
Proof. unfold ret. intros [= <- <-]. split; reflexivity. Qed.

Lemma lift_ok {A} (r : res A) (st : store) (a : A) (st' : store) :
  lift r st = Ok (a, st') -> r = Ok a /\ st' = st.
Proof.
  unfold lift. destruct r as [a0|e]; [|discriminate].
  intros [= <- <-]. split; reflexivity.
Qed.

Lemma commit_ok (st : store) (u : unit) (st' : store) :
  commit st = Ok (u, st') -> st' = st.
Proof. intros Hc. apply ret_ok in Hc as [_ ->]. reflexivity. Qed.

Lemma batch_commit_ok (b : bool) (st : store) (u : unit) (st' : store) :
  (if b then commit else ret tt) st = Ok (u, st') -> st' = st.
Proof.
  destruct b; intros Hc; [apply commit_ok in Hc | apply ret_ok in Hc as [_ Hc]];
    exact Hc.
Qed.

(** A loop keeps what each round of its body keeps. *)
Lemma for_each_invariant {A S} (I : S -> store -> Prop) (body : A -> S -> M S)
    (l : list A) :
  (forall x acc st acc' st', x ∈ l -> I acc st ->
     body x acc st = Ok (acc', st') -> I acc' st') ->
  forall acc st acc' st',
    I acc st -> for_each l body acc st = Ok (acc', st') -> I acc' st'.
Proof.
  induction l as [|x l IH]; intros Hbody acc st acc' st' HI Hrun; simpl in Hrun.
  - apply ret_ok in Hrun as [-> ->]. exact HI.
  - apply bind_ok in Hrun as (acc1 & st1 & Hx & Hrest).
    eapply IH; [| |exact Hrest].
    + intros y a s a' s' Hy. apply Hbody. apply elem_of_cons. right. exact Hy.
    + eapply Hbody; [apply list_elem_of_here | exact HI | exact Hx].
Qed.

(** ** Resolution *)

Lemma select_order_nil `{SqlEngine} (rows : list entries_row) :
  select_order rows = [] <-> rows = [].
Proof.
  split; intros E.
  - apply Permutation_nil. rewrite <- E. apply select_order_perm.
  - subst rows. apply Permutation_nil. symmetry. apply select_order_perm.
Qed.

Lemma select_order_elem `{SqlEngine} (rows : list entries_row) (r : entries_row) :
  r ∈ select_order rows <-> r ∈ rows.
Proof. rewrite (select_order_perm rows). reflexivity. Qed.

Lemma execute_select_text `{SqlEngine} (lc w : string) (st : store) :
  execute_select (PStr lc) (PStr w) st
  = Ok (map candidate_of
          (select_order (List.filter (where_lang_word lc w) (entries st))),
        st).
Proof. reflexivity. Qed.

Lemma where_lang_word_spec (lc w : string) (r : entries_row) :
  where_lang_word lc w r = true <-> lang_code r = lc /\ word r = w.
Proof.
  unfold where_lang_word. rewrite andb_true_iff, !String.eqb_eq. reflexivity.
Qed.

(** C6. Called with a language code and a word that are strings or
    null, [resolve_target_node] returns and leaves the store as it was;
    its result is [None] exactly when the language code or the word is
    null or empty, or no stored node has that language code and that
    word. *)
Theorem resolve_target_node_unresolved `{SqlEngine} (lc w : option string)
    (current_pos : pyval) (st : store) :
  exists result : option string,
    resolve_target_node (opt_str lc) (opt_str w) current_pos st = Ok (result, st)
    /\ (result = None <->
          (lc = None \/ lc = Some "") \/ (w = None \/ w = Some "")
          \/ (forall r, r ∈ entries st ->
                ~ (Some (lang_code r) = lc /\ Some (word r) = w))).
Proof.
  unfold resolve_target_node.
  destruct lc as [l|]; [destruct (String.eqb_spec l "") as [->|Hl]|].
  2: destruct w as [x|]; [destruct (String.eqb_spec x "") as [->|Hx]|].
  - exists None. split; [reflexivity|]. split; auto.
  - exists None. cbn [opt_str]. rewrite (truthy_PStr l Hl). split; [reflexivity|].
    split; auto.
  - cbn [opt_str]. rewrite (truthy_PStr l Hl), (truthy_PStr x Hx). cbn [negb orb]. unfold bind. rewrite execute_select_text.
    destruct (List.filter (where_lang_word l x) (entries st)) as [|r0 rs] eqn:Ef.
    + assert (select_order [] = []) as -> by (apply select_order_nil; reflexivity).
      exists None. split; [reflexivity|]. split; [|reflexivity].
      intros _. right. right. intros r Hr [E1 E2].
      injection E1 as E1. injection E2 as E2.
      assert (where_lang_word l x r = true) as Hm
        by (apply where_lang_word_spec; auto).
      rewrite (filter_nil_inv _ _ r Ef Hr) in Hm. discriminate.
    + destruct (map candidate_of (select_order (r0 :: rs))) as [|c cs] eqn:Erows.
      { apply map_eq_nil in Erows.
        apply (proj1 (select_order_nil _)) in Erows. discriminate. }
      destruct (pick_best_some (c :: cs) current_pos) as (r & _ & Hp);
        [discriminate|].
      exists (Some (row_id r)). unfold ret. rewrite Hp. split; [reflexivity|].
      split; [discriminate|].
      intros [[?|?]|[[?|?]|Hnone]]; try congruence.
      exfalso. apply (Hnone r0).
      * apply list_elem_of_In.
        apply (proj1 (filter_In (where_lang_word l x) r0 (entries st))).
        rewrite Ef. left. reflexivity.
      * assert (where_lang_word l x r0 = true) as Hm.
        { apply (proj1 (filter_In (where_lang_word l x) r0 (entries st))).
          rewrite Ef. left. reflexivity. }
        apply where_lang_word_spec in Hm as [-> ->]. split; reflexivity.
  - exists None. cbn [opt_str]. rewrite (truthy_PStr l Hl). split; [reflexivity|].
    split; auto.
  - exists None. split; [reflexivity|]. split; auto.
Qed.

(** ** The node pass *)

Lemma bind_entries_row_node_id (id : string) (rest : list pyval) (r : entries_row) :
  bind_entries_row (PStr id :: rest) = Ok r -> node_id r = id.
Proof.
  unfold bind_entries_row. simpl res_map. unfold res_bind at 1 2.
  simpl adapt. cbv iota.
  destruct (res_map adapt rest) as [vals|e]; [|discriminate].
  unfold res_bind at 1.
  do 15 (destruct vals as [|? vals]; [discriminate|]).
  destruct vals; [|discriminate].
  unfold res_bind.
  repeat match goal with
         | |- context [integer_column ?c] => destruct (integer_column c)
         | |- context [not_null ?c] => destruct (not_null c) eqn:?
         end; try discriminate.
  intros [= <-]. simpl. simpl in *. congruence.
Qed.

Lemma elem_of_map {A B} (f : A -> B) (l : list A) (y : B) :
  y ∈ map f l <-> exists x, x ∈ l /\ f x = y.
Proof.
  rewrite list_elem_of_In, in_map_iff. split; intros (x & H1 & H2); exists x.
  - split; [apply list_elem_of_In, H2 | exact H1].
  - split; [exact H2 | apply list_elem_of_In, H1].
Qed.

Lemma elem_of_filter_bool {A} (P : A -> bool) (l : list A) (x : A) :
  x ∈ List.filter P l <-> x ∈ l /\ P x = true.
Proof. rewrite !list_elem_of_In. apply filter_In. Qed.

Lemma elem_of_insert_or_replace (r r' : entries_row) (table : list entries_row) :
  r' ∈ insert_or_replace r table
  <-> r' = r \/ (r' ∈ table /\ node_id r' <> node_id r).
Proof.
  unfold insert_or_replace.
  rewrite elem_of_app, elem_of_filter_bool, list_elem_of_singleton.
  rewrite negb_true_iff, String.eqb_neq. tauto.
Qed.


Lemma entries_params_head `{PyRuntime} (d : dict) :
  exists rest,
    entries_params (normalize_entry d) = Ok (PStr (make_node_id d) :: rest).
Proof.
  unfold entries_params, subscript.
  rewrite normalize_entry_node_id. simpl. eauto.
Qed.

Lemma insert_entry_ok `{PyRuntime} (entry : pyval) (st : store) (u : unit)
    (st' : store) :
  insert_entry entry st = Ok (u, st') ->
  exists (d : dict) (r : entries_row),
    entry = PDict d /\ entry_row d = Ok r /\ node_id r = make_node_id d
    /\ st' = {| entries := insert_or_replace r (entries st); edges := edges st |}.
Proof.
  unfold insert_entry. intros Hrun.
  apply bind_ok in Hrun as (d & st1 & Hd & Hrun).
  apply lift_ok in Hd as [Hd ->].
  destruct entry; try discriminate Hd. injection Hd as ->.
  apply bind_ok in Hrun as (params & st1 & Hp & Hrun).
  apply lift_ok in Hp as [Hp ->].
  unfold execute_insert_entries in Hrun.
  destruct (bind_entries_row params) as [r|e] eqn:Er; [|discriminate Hrun].
  injection Hrun as _ <-.
  exists d, r. split; [reflexivity|]. split; [|split; [|reflexivity]].
  - unfold entry_row. rewrite Hp. exact Er.
  - destruct (entries_params_head d) as [rest Hrest].
    rewrite Hrest in Hp. injection Hp as <-.
    eapply bind_entries_row_node_id, Er.
Qed.

Lemma insert_entries_loop_cons `{PyRuntime} (line : string) (f : list string)
    (count : nat) (st : store) (n : nat) (st' : store) :
  insert_entries_loop (line :: f) count st = Ok (n, st') ->
  (read_entry line = Ok None /\ insert_entries_loop f count st = Ok (n, st'))
  \/ (exists entry st1,
        read_entry line = Ok (Some entry)
        /\ insert_entry entry st = Ok (tt, st1)
        /\ insert_entries_loop f (S count) st1 = Ok (n, st')).
Proof.
  intros Hrun. cbn [insert_entries_loop] in Hrun.
  apply bind_ok in Hrun as (r & st1 & Hr & Hrun).
  apply lift_ok in Hr as [Hr ->].
  destruct r as [entry|]; [right | left; auto].
  apply bind_ok in Hrun as ([] & st1 & He & Hrun).
  apply bind_ok in Hrun as ([] & st2 & Hc & Hrun).
  apply batch_commit_ok in Hc as ->.
  eauto.
Qed.




(** ** The edge pass *)

Lemma added_refl (G : edges_row -> Prop) (st : store) : added G st st.
Proof.
  split; [reflexivity|]. exists []. split; [symmetry; apply app_nil_r|].
  intros e He. inversion He.
Qed.

Lemma added_edge (G : edges_row -> Prop) (st0 st : store) (e : edges_row) :
  added G st0 st -> G e ->
  added G st0 {| entries := entries st; edges := edges st ++ [e] |}.
Proof.
  intros (He & new & Hn & Hall) Ge. split; [exact He|].
  exists (new ++ [e]). simpl. split.
  - rewrite Hn. symmetry. apply app_assoc.
  - intros e' He'. apply elem_of_app in He' as [He'|He']; [auto|].
    apply list_elem_of_singleton in He'. subst e'. exact Ge.
Qed.

Lemma execute_select_ok `{SqlEngine} (a b : pyval) (st : store)
    (rows : list candidate) (st' : store) :
  execute_select a b st = Ok (rows, st') ->
  st' = st
  /\ forall c, c ∈ rows ->
       exists row, row ∈ entries st /\ c = candidate_of row
                   /\ sql_text a = Some (lang_code row)
                   /\ sql_text b = Some (word row).
Proof.
  unfold execute_select, sql_text, res_bind.
  destruct (adapt a) as [ca|]; [|discriminate].
  destruct (adapt b) as [cb|]; [|discriminate].
  destruct (text_column ca) as [lc|]; [destruct (text_column cb) as [w|]|].
  - intros [= <- <-]. split; [reflexivity|]. intros c Hc.
    apply elem_of_map in Hc as (row & Hrow & <-).
    apply select_order_elem, elem_of_filter_bool in Hrow as [Hrow Hm].
    apply where_lang_word_spec in Hm as [<- <-]. eauto.
  - intros [= <- <-]. split; [reflexivity|]. intros c Hc. inversion Hc.
  - intros [= <- <-]. split; [reflexivity|]. intros c Hc. inversion Hc.
Qed.

Lemma resolve_target_node_ok `{SqlEngine} (a b current_pos : pyval) (st : store)
    (result : option string) (st' : store) :
  resolve_target_node a b current_pos st = Ok (result, st') ->
  st' = st
  /\ forall dst, result = Some dst ->
       exists row, row ∈ entries st /\ node_id row = dst
                   /\ sql_text a = Some (lang_code row)
                   /\ sql_text b = Some (word row).
Proof.
  unfold resolve_target_node.
  destruct (negb (truthy a) || negb (truthy b)).
  { intros Hr. apply ret_ok in Hr as [-> ->]. split; [reflexivity|]. discriminate. }
  intros Hr. apply bind_ok in Hr as (rows & st1 & Hsel & Hr).
  apply execute_select_ok in Hsel as [-> Hrows].
  destruct rows as [|c cs] eqn:Erows.
  { apply ret_ok in Hr as [-> ->]. split; [reflexivity|]. discriminate. }
  apply ret_ok in Hr as [-> ->]. split; [reflexivity|].
  intros dst Hdst.
  destruct (pick_best_some (c :: cs) current_pos) as (r & Hin & Hp);
    [discriminate|].
  rewrite Hp in Hdst. injection Hdst as <-.
  destruct (Hrows r Hin) as (row & Hrow & -> & Ha & Hb).
  exists row. auto.
Qed.

Lemma insert_edge_ok `{SqlEngine} (src : string) (current_pos entry_lang : pyval)
    (kind : string) (use_pos fallback : bool) (rel : reference) (count : nat)
    (st : store) (count' : nat) (st' : store) :
  insert_edge src current_pos entry_lang kind use_pos fallback rel count st
    = Ok (count', st') ->
  (count' = count /\ st' = st)
  \/ (exists row : entries_row,
        count' = S count
        /\ truthy (target_language fallback entry_lang rel) = true
        /\ row ∈ entries st
        /\ sql_text (target_language fallback entry_lang rel)
           = Some (lang_code row)
        /\ sql_text (ref_word rel) = Some (word row)
        /\ st' = {| entries := entries st;
                    edges := edges st
                      ++ [{| src_id := src; dst_id := node_id row;
                             relation_type := kind; raw_payload := None |}] |}).
Proof.
  unfold insert_edge. fold (target_language fallback entry_lang rel).
  destruct (negb (truthy (ref_word rel))).
  { intros Hr. apply ret_ok in Hr as [-> ->]. left. auto. }
  destruct (truthy (target_language fallback entry_lang rel)) eqn:Etl; simpl negb; cbv iota.
  2: { intros Hr. apply ret_ok in Hr as [-> ->]. left. auto. }
  intros Hr. apply bind_ok in Hr as (dst & st1 & Hres & Hr).
  apply resolve_target_node_ok in Hres as [-> Hrow].
  destruct dst as [dst|].
  2: { apply ret_ok in Hr as [-> ->]. left. auto. }
  destruct (String.eqb dst "").
  { apply ret_ok in Hr as [-> ->]. left. auto. }
  apply bind_ok in Hr as ([] & st1 & Hins & Hr).
  apply ret_ok in Hr as [-> ->].
  unfold execute_insert_edges in Hins. injection Hins as <-.
  destruct (Hrow dst eq_refl) as (row & Hin & <- & Ha & Hb).
  right. exists row. auto 10.
Qed.

Lemma insert_edges_of_spec_added `{PyRuntime} `{SqlEngine}
    (G : edges_row -> Prop) (st0 : store) (d : dict) (current_pos : pyval)
    (spec : string * string * bool * bool) (count : nat) (st : store)
    (count' : nat) (st' : store) :
  spec ∈ RELATION_SPECS ->
  (forall e, edge_from (entries st0) d e -> G e) ->
  added G st0 st ->
  insert_edges_of_spec d (make_node_id d) current_pos (dict_get d "lang_code")
    spec count st = Ok (count', st') ->
  added G st0 st'.
Proof.
  destruct spec as [[[field kind] use_pos] fallback]. intros Hspec HG Hadd Hrun.
  unfold insert_edges_of_spec in Hrun.
  apply bind_ok in Hrun as (rels & st1 & Hrels & Hrun).
  apply lift_ok in Hrels as [Hrels ->].
  revert Hadd Hrun.
  apply (for_each_invariant (fun (_ : nat) s => added G st0 s)).
  intros rel c s c' s' Hrel Hs Hbody.
  apply insert_edge_ok in Hbody
    as [[_ ->]|(row & _ & _ & Hrow & Hlang & Hword & ->)]; [exact Hs|].
  apply added_edge; [exact Hs|]. apply HG.
  split; [reflexivity|].
  exists field, kind, use_pos, fallback, rels, rel, row.
  destruct Hs as [Hentries _]. rewrite Hentries in Hrow. auto 10.
Qed.

Lemma insert_edges_of_entry_added `{PyRuntime} `{SqlEngine}
    (G : edges_row -> Prop) (st0 : store) (entry : pyval) (count : nat)
    (st : store) (count' : nat) (st' : store) :
  (forall d e, entry = PDict d -> edge_from (entries st0) d e -> G e) ->
  added G st0 st ->
  insert_edges_of_entry entry count st = Ok (count', st') ->
  exists d, entry = PDict d /\ added G st0 st'.
Proof.
  intros HG Hadd Hrun. unfold insert_edges_of_entry in Hrun.
  apply bind_ok in Hrun as (d & st1 & Hd & Hrun).
  apply lift_ok in Hd as [Hd ->].
  destruct entry; try discriminate Hd. injection Hd as ->.
  exists d. split; [reflexivity|].
  revert Hadd Hrun.
  apply (for_each_invariant (fun (_ : nat) s => added G st0 s)).
  intros spec c s c' s' Hspec Hs Hbody.
  eapply insert_edges_of_spec_added; eauto.
Qed.

Lemma insert_edges_loop_cons `{PyRuntime} `{SqlEngine} (line : string)
    (f : list string) (ce cn : nat) (st : store) (counts : nat * nat)
    (st' : store) :
  insert_edges_loop (line :: f) ce cn st = Ok (counts, st') ->
  (read_entry line = Ok None /\ insert_edges_loop f ce cn st = Ok (counts, st'))
  \/ (exists entry ce' st1,
        read_entry line = Ok (Some entry)
        /\ insert_edges_of_entry entry ce st = Ok (ce', st1)
        /\ insert_edges_loop f ce' (S cn) st1 = Ok (counts, st')).
Proof.
  intros Hrun. cbn [insert_edges_loop] in Hrun.
  apply bind_ok in Hrun as (r & st1 & Hr & Hrun).
  apply lift_ok in Hr as [Hr ->].
  destruct r as [entry|]; [right | left; auto].
  apply bind_ok in Hrun as (ce' & st1 & He & Hrun).
  apply bind_ok in Hrun as ([] & st2 & Hc & Hrun).
  apply batch_commit_ok in Hc as ->.
  eauto 6.
Qed.

Lemma insert_edges_loop_added `{PyRuntime} `{SqlEngine} (st0 : store)
    (f : list string) (ce cn : nat) (st : store) (counts : nat * nat)
    (st' : store) (G : edges_row -> Prop) :
  (forall d e, cited f d -> edge_from (entries st0) d e -> G e) ->
  added G st0 st ->
  insert_edges_loop f ce cn st = Ok (counts, st') ->
  added G st0 st'.
Proof.
  revert ce cn st. induction f as [|line f IH]; intros ce cn st HG Hadd Hrun.
  - apply ret_ok in Hrun as [_ ->]. exact Hadd.
  - assert (forall d e, cited f d -> edge_from (entries st0) d e -> G e) as HG'.
    { intros d e (l & Hl & Hread). apply HG. exists l.
      split; [apply elem_of_cons; right; exact Hl | exact Hread]. }
    apply insert_edges_loop_cons in Hrun
      as [[_ Hrun]|(entry & ce' & st1 & Hread & He & Hrun)].
    + eapply IH; eauto.
    + eapply (insert_edges_of_entry_added G st0) in He as (d & -> & Hadd1);
        [eapply IH; eauto| |exact Hadd].
      intros d e -> Hfrom. apply (HG d e); [|exact Hfrom].
      exists line. split; [apply list_elem_of_here | exact Hread].
Qed.

Lemma node_ids_insert_entry `{PyRuntime} (entry : pyval) (st st' : store) :
  insert_entry entry st = Ok (tt, st') ->
  (forall id, id ∈ node_ids st -> id ∈ node_ids st')
  /\ forall d, entry = PDict d -> make_node_id d ∈ node_ids st'.
Proof.
  intros Hrun. apply insert_entry_ok in Hrun as (d & r & -> & _ & Hid & ->).
  unfold node_ids. simpl. split.
  - intros id Hin. apply elem_of_map in Hin as (r' & Hr' & <-).
    apply elem_of_map.
    destruct (String.eqb_spec (node_id r') (node_id r)) as [E|E].
    + exists r. split; [apply elem_of_insert_or_replace; auto | congruence].
    + exists r'. split; [apply elem_of_insert_or_replace; auto | reflexivity].
  - intros d' [= <-]. apply elem_of_map. exists r.
    split; [apply elem_of_insert_or_replace; auto | exact Hid].
Qed.

Lemma insert_entries_loop_ids `{PyRuntime} (f : list string) (count : nat)
    (st : store) (n : nat) (st' : store) :
  insert_entries_loop f count st = Ok (n, st') ->
  (forall id, id ∈ node_ids st -> id ∈ node_ids st')
  /\ forall d, cited f d -> make_node_id d ∈ node_ids st'.
Proof.
  revert count st. induction f as [|line f IH]; intros count st Hrun.
  - apply ret_ok in Hrun as [_ ->]. split; [auto|].
    intros d (l & Hl & _). inversion Hl.
  - apply insert_entries_loop_cons in Hrun
      as [[Hread Hrun]|(entry & st1 & Hread & He & Hrun)].
    + destruct (IH _ _ Hrun) as [Hmono Hcited]. split; [exact Hmono|].
      intros d (l & Hl & Hd). apply elem_of_cons in Hl as [->|Hl].
      * congruence.
      * apply Hcited. exists l. auto.
    + destruct (IH _ _ Hrun) as [Hmono Hcited].
      apply node_ids_insert_entry in He as [Hmono1 Hnew].
      split; [auto|].
      intros d (l & Hl & Hd). apply elem_of_cons in Hl as [->|Hl].
      * apply Hmono, Hnew. congruence.
      * apply Hcited. exists l. auto.
Qed.

(** C10. The edge pass leaves the nodes untouched and only adds edges.
    Every edge it adds has as source the identity of an entry of the
    corpus, and as destination the [node_id] of a node stored before the
    pass whose word and language code are those of the reference that
    was resolved (the language being the reference's own, or the citing
    entry's when the relation inherits it).  When the node set was built
    by the node pass over the same corpus, both ends of every added edge
    are identities of stored nodes. *)
Theorem edges_refer_to_nodes `{PyRuntime} `{SqlEngine} (f : list string)
    (st : store) (counts : nat * nat) (st' : store) :
  insert_edges_from_jsonl f st = Ok (counts, st') ->
  entries st' = entries st
  /\ exists new : list edges_row,
       edges st' = edges st ++ new
       /\ (forall e, e ∈ new ->
             exists d, cited f d /\ edge_from (entries st) d e)
       /\ (forall (st0 : store) (n : nat),
             insert_entries_from_jsonl f st0 = Ok (n, st) ->
             forall e, e ∈ new ->
               src_id e ∈ node_ids st /\ dst_id e ∈ node_ids st).
Proof.
  intros Hrun. unfold insert_edges_from_jsonl in Hrun.
  apply bind_ok in Hrun as (c & st1 & Hloop & Hrun).
  apply bind_ok in Hrun as ([] & st2 & Hc & Hrun).
  apply commit_ok in Hc as ->. apply ret_ok in Hrun as [_ ->].
  apply (insert_edges_loop_added st _ _ _ _ _ _
           (fun e => exists d, cited f d /\ edge_from (entries st) d e))
    in Hloop as (Hentries & new & Hnew & Hall); [|eauto|apply added_refl].
  split; [exact Hentries|]. exists new. split; [exact Hnew|].
  split; [exact Hall|].
  intros st0 n Hnodes e He.
  destruct (Hall e He) as (d & Hd & Hsrc & Hdst).
  split.
  - rewrite Hsrc. unfold insert_entries_from_jsonl in Hnodes.
    apply bind_ok in Hnodes as (n' & s1 & Hl & Hnodes).
    apply bind_ok in Hnodes as ([] & s2 & Hc & Hnodes).
    apply commit_ok in Hc as ->. apply ret_ok in Hnodes as [_ ->].
    apply (insert_entries_loop_ids _ _ _ _ _ Hl). exact Hd.
  - destruct Hdst as (field & kind & use_pos & fallback & rels & rel & row
                      & _ & _ & _ & _ & Hrow & -> & _).
    apply elem_of_map. eauto.
Qed.

Lemma edges_refer_to_nodes_witness :
  exists (st st' : store) (counts : nat * nat),
    @insert_entries_from_jsonl sample_runtime [line_foo; line_bar; line_baz]
      empty_store = Ok (3%nat, st)
    /\ @insert_edges_from_jsonl sample_runtime table_order
         [line_foo; line_bar; line_baz] st = Ok (counts, st')
    /\ entries st' = entries st
    /\ exists new : list edges_row,
         edges st' = edges st ++ new
         /\ (forall e, e ∈ new ->
               exists d, @cited sample_runtime [line_foo; line_bar; line_baz] d
                         /\ @edge_from sample_runtime (entries st) d e)
         /\ (forall (st0 : store) (n : nat),
               @insert_entries_from_jsonl sample_runtime
                 [line_foo; line_bar; line_baz] st0 = Ok (n, st) ->
               forall e, e ∈ new ->
                 src_id e ∈ node_ids st /\ dst_id e ∈ node_ids st).
Proof.
  destruct (@insert_entries_from_jsonl sample_runtime
              [line_foo; line_bar; line_baz] empty_store)
    as [[n st]|e] eqn:E1; [|vm_compute in E1; discriminate E1].
  assert (n = 3%nat) as -> by (vm_compute in E1; congruence).
  destruct (@insert_edges_from_jsonl sample_runtime table_order
              [line_foo; line_bar; line_baz] st) as [[counts st']|e] eqn:E2.
  - exists st, st', counts. split; [reflexivity|]. split; [exact E2|].
    exact (@edges_refer_to_nodes sample_runtime table_order _ _ _ _ E2).
  - vm_compute in E1. injection E1 as <-. vm_compute in E2. discriminate E2.
Defined.

(** X2. The end-to-end example of the specification: the two entries
    give two nodes, and one [derived] edge from [bar] to [foo], the
    reference to [foo] inheriting the language of [bar]. *)
Example two_entries_one_edge :
  exists st : store,
    @insert_entries_from_jsonl sample_runtime [line_foo; line_bar] empty_store
      = Ok (2%nat, st)
    /\ node_ids st = ["en:foo:noun:0"; "en:bar:verb:0"]
    /\ exists st' : store,
         @insert_edges_from_jsonl sample_runtime table_order
           [line_foo; line_bar] st = Ok ((2%nat, 1%nat), st')
         /\ edges st' = [{| src_id := "en:bar:verb:0"; dst_id := "en:foo:noun:0";
                            relation_type := "derived"; raw_payload := None |}].
Proof.
  eexists. split; [vm_compute; reflexivity|]. split; [reflexivity|].
  eexists. split; [vm_compute; reflexivity|]. reflexivity.
Qed.

(** ** Relation specs *)






Example descendant_without_language :
  exists st : store,
    @insert_entries_from_jsonl sample_runtime [line_foo; line_baz] empty_store
      = Ok (2%nat, st)
    /\ @insert_edges_from_jsonl sample_runtime table_order [line_foo; line_baz] st
       = Ok ((2%nat, 0%nat), st).
Proof. eexists. split; vm_compute; reflexivity. Qed.

(** ** Lines of the corpus *)

(** A blank line, a line [json.loads] rejects with [JSONDecodeError]
    and an object lacking [word] or [lang_code] hold no entry. *)
Lemma read_entry_skips `{PyRuntime} (line : string) :
  strip line = ""
  \/ json_loads (strip line) = Raise JSONDecodeError
  \/ (exists d, json_loads (strip line) = Ok (PDict d)
                /\ (dict_has d "word" = false \/ dict_has d "lang_code" = false)) ->
  read_entry line = Ok None.
Proof.
  unfold read_entry. intros [E|Hl].
  { rewrite E. reflexivity. }
  destruct (String.eqb (strip line) ""); [reflexivity|].
  destruct Hl as [-> | (d & -> & Hd)]; [reflexivity|].
  cbn [py_in res_bind]. destruct (dict_has d "word"); [|reflexivity].
  destruct Hd as [Hd | ->]; [discriminate Hd | reflexivity].
Qed.

(** A line that holds no entry changes neither the store nor a count,
    in either pass. *)
Lemma skipped_line_is_ignored `{PyRuntime} `{SqlEngine} (line : string)
    (f : list string) :
  read_entry line = Ok None ->
  (forall count st,
     insert_entries_loop (line :: f) count st = insert_entries_loop f count st)
  /\ (forall count_edges count_entries st,
        insert_edges_loop (line :: f) count_edges count_entries st
        = insert_edges_loop f count_edges count_entries st).
Proof.
  intros Hread. split; intros; cbn [insert_entries_loop insert_edges_loop];
    unfold bind, lift; rewrite Hread; reflexivity.
Qed.

(** C8. Not every line can be survived: a line that [json.loads]
    decodes to a number is not skipped.  The test ["word" not in entry]
    raises [TypeError], which nothing catches, and either pass ends
    there. *)
Theorem number_line_aborts `{PyRuntime} `{SqlEngine} (line : string) (n : Z)
    (f : list string) (st : store) :
  strip line <> "" ->
  json_loads (strip line) = Ok (PInt n) ->
  read_entry line = Raise TypeError
  /\ insert_entries_from_jsonl (line :: f) st = Raise TypeError
  /\ insert_edges_from_jsonl (line :: f) st = Raise TypeError.
Proof.
  intros Hne Hloads.
  assert (read_entry line = Raise TypeError) as Hread.
  { unfold read_entry. destruct (String.eqb_spec (strip line) ""); [contradiction|].
    rewrite Hloads. reflexivity. }
  split; [exact Hread|]. split.
  - unfold insert_entries_from_jsonl. cbn [insert_entries_loop].
    unfold bind, lift. rewrite Hread. reflexivity.
  - unfold insert_edges_from_jsonl. cbn [insert_edges_loop].
    unfold bind, lift. rewrite Hread. reflexivity.
Qed.

Lemma number_line_aborts_witness :
  @read_entry sample_runtime line_number = Raise TypeError
  /\ @insert_entries_from_jsonl sample_runtime [line_number; line_foo]
       empty_store = Raise TypeError
  /\ @insert_edges_from_jsonl sample_runtime table_order [line_number; line_foo]
       empty_store = Raise TypeError.
Proof.
  apply (@number_line_aborts sample_runtime table_order line_number 42
           [line_foo] empty_store).
  - discriminate.
  - reflexivity.
Defined.

(** X1. In both passes a blank line, a line that [json.loads] rejects
    with [JSONDecodeError], and a decoded object lacking [word] or
    [lang_code] are skipped: the pass goes on with the rest of the
    corpus from the same store and the same counts. *)
Theorem skipped_lines_leave_no_trace `{PyRuntime} `{SqlEngine} (line : string)
    (f : list string) :
  strip line = ""
  \/ json_loads (strip line) = Raise JSONDecodeError
  \/ (exists d, json_loads (strip line) = Ok (PDict d)
                /\ (dict_has d "word" = false \/ dict_has d "lang_code" = false)) ->
  (forall count st,
     insert_entries_loop (line :: f) count st = insert_entries_loop f count st)
  /\ (forall count_edges count_entries st,
        insert_edges_loop (line :: f) count_edges count_entries st
        = insert_edges_loop f count_edges count_entries st).
Proof.
  intros Hline. apply skipped_line_is_ignored, read_entry_skips, Hline.
Qed.

Lemma skipped_lines_leave_no_trace_witness :
  (forall count st,
     @insert_entries_loop sample_runtime ("{oops" :: [line_foo]) count st
     = @insert_entries_loop sample_runtime [line_foo] count st)
  /\ (forall count_edges count_entries st,
        @insert_edges_loop sample_runtime table_order ("{oops" :: [line_foo])
          count_edges count_entries st
        = @insert_edges_loop sample_runtime table_order [line_foo]
            count_edges count_entries st).
Proof.
  apply (@skipped_lines_leave_no_trace sample_runtime table_order "{oops"
           [line_foo]).
  right. left. reflexivity.
Defined.
